(** * IPv6 address pool and address-aware dispatcher of M3U8-Proxy

    A shallow embedding of [src/libraries/ipv6pool.ts] and
    [src/libraries/ipv6proxy.ts].

    Modelling conventions.
    - The module-level variables of [ipv6pool.ts] ([ipPool], [poolMutex],
      [currentIPIndex], [initialized], [poolTimer]) form the record
      [PoolVars]; every function is a computation in the monad [M], which
      threads these variables together with a [World] recording what the
      process did to its environment (commands handed to [execAsync],
      [Math.random] draws, [axios] calls, sockets opened by the streaming
      variant).
    - The environment answers through oracles that are parameters of the
      development: the reply to the k-th shell command, the k-th random
      draw, the reply to the k-th [axios] call, [net.isIPv6], [new URL].
      Quantifying over the oracles covers every pattern of command
      successes and failures.
    - A computation ends in [Returned v], in [Thrown e] (a JavaScript
      exception, or a rejected promise) or in [Exhausted]: the recursion
      budget handed to [getNextIPFromPool] ran out before the call came
      back.
    - [async] functions run to completion without interleaving (each
      operation is one atomic step); [console] output is not modelled.
    - Configuration numbers are integers ([Z]); [NaN] is not modelled. *)

From stdpp Require Import base list strings.
From Stdlib Require Import ZArith Lia Ascii.

Local Open Scope Z_scope.

(** ** JavaScript values used by the two modules *)

Record JsError := mkJsError {
  code : option string;
  message : option string;
}.

(** Truthiness of a [string | undefined | null] value. *)
Definition truthy (o : option string) : bool :=
  match o with
  | Some s => negb (String.eqb s EmptyString)
  | None => false
  end.

(** [a || b] on [string | undefined | null] values. *)
Definition orElse (a b : option string) : option string :=
  if truthy a then a else b.

(** [hay.includes(needle)]. *)
Fixpoint includes (needle hay : string) : bool :=
  String.prefix needle hay ||
  match hay with
  | EmptyString => false
  | String _ rest => includes needle rest
  end.

(** Index normalisation of [Array.prototype.slice]. *)
Definition relIndex (len : nat) (k : Z) : nat :=
  if k <? 0 then Z.to_nat (Z.max (Z.of_nat len + k) 0)
  else Z.to_nat (Z.min k (Z.of_nat len)).

(** [l.slice(start, stop)]; [stop = None] is the one-argument form. *)
Definition slice {A} (start : Z) (stop : option Z) (l : list A) : list A :=
  let s := relIndex (length l) start in
  let e := match stop with
           | Some k => relIndex (length l) k
           | None => length l
           end in
  take (e - s)%nat (drop s l).

(** The double-quote character. *)
Definition dquote : ascii := ascii_of_nat 34.

(** [v.toString(16)] for a non-negative integer. *)
Definition hexDigit (d : Z) : ascii :=
  match d with
  | 0 => "0" | 1 => "1" | 2 => "2" | 3 => "3" | 4 => "4" | 5 => "5"
  | 6 => "6" | 7 => "7" | 8 => "8" | 9 => "9" | 10 => "a" | 11 => "b"
  | 12 => "c" | 13 => "d" | 14 => "e" | _ => "f"
  end%char.

Fixpoint toString16_aux (fuel : nat) (v : Z) (acc : string) : string :=
  match fuel with
  | O => acc
  | S fuel' =>
      let acc' := String (hexDigit (v mod 16)) acc in
      if v / 16 =? 0 then acc' else toString16_aux fuel' (v / 16) acc'
  end.

Definition toString16 (v : Z) : string := toString16_aux 64 v EmptyString.

(** [s.padStart(n, c)] with a one-character filler. *)
Definition padStart (n : nat) (c : ascii) (s : string) : string :=
  String.concat EmptyString (replicate (n - String.length s)%nat (String c EmptyString)) +:+ s.

(** ** Configuration and process state *)

Inductive Platform := darwin | win32 | linux.

Record Config := mkConfig {
  ipv6Prefix : string;
  ipv6Subnet : string;
  interface : string;
  desiredPoolSize : Z;
  poolManageInterval : Z;
  poolAddBatchSize : Z;
  debug : bool;
}.

Record PoolVars := mkPoolVars {
  ipPool : list string;
  poolMutex : bool;
  currentIPIndex : nat;
  initialized : bool;
  poolTimer : option Z;      (* the interval handle, or null *)
}.

(** ** Transport objects of the dispatcher *)

(** The options handed to [new http.Agent] / [new https.Agent]. *)
Record Agent := mkAgent {
  agentIsHttps : bool;
  keepAlive : bool;
  timeout : Z;
  localAddress : string;
}.

(** [AxiosRequestConfig]: the fields the dispatcher touches, and the
    caller's remaining options. *)
Record AxiosRequestConfig := mkAxiosConfig {
  cfgUrl : option string;
  httpAgent : option Agent;
  httpsAgent : option Agent;
  cfgTimeout : option Z;
  cfgOther : list (string * string);
}.

(** The two call shapes of [axios] in the source. *)
Inductive AxiosCall :=
| AxiosUrl (url : string) (options : AxiosRequestConfig)   (* axios(url, options) *)
| AxiosCfg (config : AxiosRequestConfig).                  (* axios({...}) *)

Record Response := mkResponse {
  status : Z;
  data : string;
}.

Record URL := mkURL {
  protocol : string;
  hostname : string;
  port : string;
  pathname : string;
  search : string;
}.

(** [http.RequestOptions] as the streaming variant fills it; the fields it
    leaves unset are kept to show that they stay unset. *)
Record RequestOptions := mkRequestOptions {
  roHostname : string;
  roPort : string + Z;
  roPath : string;
  roMethod : string;
  roHeaders : list (string * string);
  roLocalAddress : option string;
  roAgent : option Agent;
  roTimeout : option Z;
}.

(** A socket opened by the streaming variant: [https.request] or
    [http.request], and its options. *)
Record ClientRequest := mkClientRequest {
  viaHttps : bool;
  reqOptions : RequestOptions;
}.

Record World := mkWorld {
  execLog : list string;           (* commands handed to execAsync, oldest first *)
  randomDraws : nat;               (* Math.random calls so far *)
  axiosLog : list AxiosCall;       (* axios calls, oldest first *)
  streamLog : list ClientRequest;  (* requests opened by http(s).request *)
}.

Record State := mkState {
  vars : PoolVars;
  world : World;
}.

Definition set_ipPool (l : list string) (st : State) : State :=
  let v := vars st in
  mkState (mkPoolVars l (poolMutex v) (currentIPIndex v) (initialized v) (poolTimer v))
          (world st).

Definition set_poolMutex (b : bool) (st : State) : State :=
  let v := vars st in
  mkState (mkPoolVars (ipPool v) b (currentIPIndex v) (initialized v) (poolTimer v))
          (world st).

Definition set_currentIPIndex (i : nat) (st : State) : State :=
  let v := vars st in
  mkState (mkPoolVars (ipPool v) (poolMutex v) i (initialized v) (poolTimer v))
          (world st).

Definition set_initialized (b : bool) (st : State) : State :=
  let v := vars st in
  mkState (mkPoolVars (ipPool v) (poolMutex v) (currentIPIndex v) b (poolTimer v))
          (world st).

Definition set_poolTimer (t : option Z) (st : State) : State :=
  let v := vars st in
  mkState (mkPoolVars (ipPool v) (poolMutex v) (currentIPIndex v) (initialized v) t)
          (world st).

Definition log_exec (cmd : string) (st : State) : State :=
  let w := world st in
  mkState (vars st)
          (mkWorld (execLog w ++ [cmd]) (randomDraws w) (axiosLog w) (streamLog w)).

(** Several commands at once, in order. *)
Definition log_execs (cmds : list string) (st : State) : State :=
  let w := world st in
  mkState (vars st)
          (mkWorld (execLog w ++ cmds) (randomDraws w) (axiosLog w) (streamLog w)).

Definition log_random (st : State) : State :=
  let w := world st in
  mkState (vars st)
          (mkWorld (execLog w) (S (randomDraws w)) (axiosLog w) (streamLog w)).

Definition log_axios (c : AxiosCall) (st : State) : State :=
  let w := world st in
  mkState (vars st)
          (mkWorld (execLog w) (randomDraws w) (axiosLog w ++ [c]) (streamLog w)).

Definition log_stream (r : ClientRequest) (st : State) : State :=
  let w := world st in
  mkState (vars st)
          (mkWorld (execLog w) (randomDraws w) (axiosLog w) (streamLog w ++ [r])).

(** The variables as the module leaves them when it is loaded. *)
Definition initialVars : PoolVars := mkPoolVars [] false 0 false None.
Definition initialState : State := mkState initialVars (mkWorld [] 0 [] []).

(** ** The monad of the embedding *)

Inductive Outcome (A : Type) : Type :=
| Returned (a : A)
| Thrown (e : JsError)
| Exhausted.
Arguments Returned {A} a.
Arguments Thrown {A} e.
Arguments Exhausted {A}.

Definition M (A : Type) : Type := State -> Outcome A * State.

#[global] Instance M_ret : MRet M := fun A a st => (Returned a, st).

#[global] Instance M_bind : MBind M := fun A B f m st =>
  match m st with
  | (Returned a, st') => f a st'
  | (Thrown e, st') => (Thrown e, st')
  | (Exhausted, st') => (Exhausted, st')
  end.

Definition throw {A} (e : JsError) : M A := fun st => (Thrown e, st).
Definition gets {A} (f : PoolVars -> A) : M A := fun st => (Returned (f (vars st)), st).
Definition modify (f : State -> State) : M unit := fun st => (Returned tt, f st).

(** [try { body } catch (err) { handler err }]. *)
Definition tryCatch {A} (body : M A) (handler : JsError -> M A) : M A := fun st =>
  match body st with
  | (Thrown e, st') => handler e st'
  | r => r
  end.

(** [try { body } finally { cleanup }]. *)
Definition tryFinally {A} (body : M A) (cleanup : M unit) : M A := fun st =>
  let '(r, st') := body st in
  match cleanup st' with
  | (Returned _, st'') => (r, st'')
  | (Thrown e, st'') => (Thrown e, st'')
  | (Exhausted, st'') => (Exhausted, st'')
  end.

(** [for (const x of l) { body x }]. *)
Fixpoint forOf {A} (l : list A) (body : A -> M unit) : M unit :=
  match l with
  | [] => mret tt
  | x :: rest => body x ;; forOf rest body
  end.

(** [for (let i = 0; i < n; i++) { acc = body acc }], the accumulator
    being the array the loop body pushes to. *)
Fixpoint forCount {A} (n : nat) (body : A -> M A) (acc : A) : M A :=
  match n with
  | O => mret acc
  | S n' => acc' ← body acc; forCount n' body acc'
  end.

(** The reply of the operating system to a shell command. *)
Inductive ExecReply :=
| ExecOk (stdout : string)
| ExecFail (err : JsError).

(** ** Interface detection ([detectInterface]) *)

(** [os.NetworkInterfaceInfo]: the two fields [detectInterface] reads. *)
Record NetworkInterfaceInfo := mkNetworkInterfaceInfo {
  internal : bool;
  family : string;
}.

(** [iface => !iface.internal && iface.family === 'IPv4']. *)
Definition isExternalIPv4 (iface : NetworkInterfaceInfo) : bool :=
  negb (internal iface) && String.eqb (family iface) "IPv4".

(** The argument is [Object.entries(os.networkInterfaces())]: the names
    in enumeration order, each with its address list or [undefined]. *)
Fixpoint detectInterface
    (interfaces : list (string * option (list NetworkInterfaceInfo))) : string :=
  match interfaces with
  | [] => "eth0"
  | (name, netInterfaces) :: rest =>
      match netInterfaces with
      | Some infos =>
          match List.find isExternalIPv4 infos with
          | Some _ => name
          | None => detectInterface rest
          end
      | None => detectInterface rest
      end
  end.

(** An entry of the interface table that owns a non-internal IPv4 address. *)
Definition hasExternalIPv4 (entry : string * option (list NetworkInterfaceInfo)) : bool :=
  match snd entry with
  | Some infos => existsb isExternalIPv4 infos
  | None => false
  end.

(** The pieces of a string between the occurrences of a separator, as
    [String.prototype.split] gives them (empty pieces included). *)
Fixpoint splitOn (sep : ascii) (s : string) : list string :=
  match s with
  | EmptyString => [EmptyString]
  | String c rest =>
      if Ascii.eqb c sep then EmptyString :: splitOn sep rest
      else match splitOn sep rest with
           | g :: gs => String c g :: gs
           | [] => [String c EmptyString]
           end
  end.

Definition isDigit (c : ascii) : bool :=
  let n := nat_of_ascii c in ((48 <=? n) && (n <=? 57))%nat.

Definition isHexDigit (c : ascii) : bool :=
  let n := nat_of_ascii c in
  ((48 <=? n) && (n <=? 57) || (97 <=? n) && (n <=? 102) || (65 <=? n) && (n <=? 70))%nat.

(** One group of an IPv6 address: one to four hexadecimal digits. *)
Definition isHexGroup (g : string) : bool :=
  (1 <=? String.length g)%nat && (String.length g <=? 4)%nat
  && forallb isHexDigit (String.list_ascii_of_string g).

(** One number of a dotted IPv4 address: 0 to 255 in decimal, without a
    leading zero. *)
Definition isDecimalOctet (g : string) : bool :=
  match String.list_ascii_of_string g with
  | [a] => isDigit a
  | [a; b] => isDigit a && isDigit b && negb (Ascii.eqb a "0")
  | [a; b; c] =>
      isDigit a && isDigit b && isDigit c && negb (Ascii.eqb a "0")
      && (100 * (nat_of_ascii a - 48) + 10 * (nat_of_ascii b - 48)
          + (nat_of_ascii c - 48) <=? 255)%nat
  | _ => false
  end.

(** [net.isIPv4]: four such numbers separated by dots. *)
Definition isIPv4 (s : string) : bool :=
  let parts := splitOn "." s in
  (length parts =? 4)%nat && forallb isDecimalOctet parts.

(** A lowercase hexadecimal digit. *)
Definition isLowerHex (c : ascii) : bool :=
  let n := nat_of_ascii c in
  ((48 <=? n) && (n <=? 57) || (97 <=? n) && (n <=? 102))%nat.

(** ** Concrete oracles for evaluating the model on examples *)

(** A stand-in for [net.isIPv6] on the addresses of the examples.  It
    accepts the full form, eight groups of one to four hexadecimal
    digits separated by colons, and the compressed form in which one
    double colon inside the address stands for the missing groups.  The
    other forms [net.isIPv6] knows (a leading or trailing double colon,
    an embedded IPv4 address, a zone index) are refused here and are not
    used in the examples. *)
Definition sampleIsIPv6 (s : string) : bool :=
  let groups := splitOn ":" s in
  let filled := filter (fun g => negb (String.eqb g EmptyString)) groups in
  let gaps := (length groups - length filled)%nat in
  forallb isHexGroup filled
  && ((gaps =? 0)%nat && (length filled =? 8)%nat
      || (gaps =? 1)%nat && (length filled <=? 7)%nat
         && negb (String.eqb (hd EmptyString groups) EmptyString)
         && negb (String.eqb (List.last groups EmptyString) EmptyString)).

(** A stand-in for [new URL] on the absolute http and https URLs of the
    examples: scheme, host, and the path from the first slash on. *)
Fixpoint splitAtSlash (s : string) : string * string :=
  match s with
  | EmptyString => (EmptyString, "/")
  | String c rest =>
      if Ascii.eqb c "/" then (EmptyString, s)
      else let '(h, p) := splitAtSlash rest in (String c h, p)
  end.

Definition sampleParseURL (url : string) : option URL :=
  if String.prefix "https://" url then
    let '(h, p) := splitAtSlash (String.substring 8 (String.length url - 8) url) in
    Some (mkURL "https:" h EmptyString p EmptyString)
  else if String.prefix "http://" url then
    let '(h, p) := splitAtSlash (String.substring 7 (String.length url - 7) url) in
    Some (mkURL "http:" h EmptyString p EmptyString)
  else None.

Definition emptyOptions : AxiosRequestConfig := mkAxiosConfig None None None None [].

Definition sampleConfig (desired batch : Z) : Config :=
  mkConfig "2001:db8:85a3" "1000" "eth0" desired 5000 batch false.

(** The answer of [ip link show] for an interface that is up. *)
Definition sampleLinkUp : string :=
  "2: eth0: <BROADCAST,MULTICAST,UP,LOWER_UP> mtu 1500 state UP".

Definition sampleDenied : JsError :=
  mkJsError None (Some "Command failed: RTNETLINK answers: Operation not permitted").

(** The commands numbered below [n] succeed, the later ones are refused. *)
Definition sampleExec (n k : nat) (cmd : string) : ExecReply :=
  if (k <? n)%nat then ExecOk sampleLinkUp else ExecFail sampleDenied.

(** Every command succeeds. *)
Definition sampleExecOk (k : nat) (cmd : string) : ExecReply := ExecOk sampleLinkUp.

(** Every command fails the way [ip -6 addr add] does for an address
    that is already on the interface. *)
Definition sampleExecExists (k : nat) (cmd : string) : ExecReply :=
  ExecFail (mkJsError None (Some "Command failed: RTNETLINK answers: File exists")).

(** Every removal of an address is refused; every other command
    succeeds. *)
Definition sampleExecNoRemoval (k : nat) (cmd : string) : ExecReply :=
  if String.prefix "ip -6 addr del " cmd then ExecFail sampleDenied
  else ExecOk sampleLinkUp.

Definition sampleRandom (k : nat) : Z := Z.of_nat k * 65537 + 11.

Definition sampleInterfaces (name : string) : bool := String.eqb name "eth0".

(** The first [axios] call fails with the error code [c], the later ones
    answer 200. *)
Definition sampleAxios (c : string) (k : nat) (call : AxiosCall) : Response + JsError :=
  if (k =? 0)%nat then inr (mkJsError (Some c) (Some "connect failed"))
  else inl (mkResponse 200 "#EXTM3U").

Definition samplePool : list string :=
  ["2001:db8:85a3:1000:0000:000b:0001:000c";
   "2001:db8:85a3:1000:0002:000d:0003:000e";
   "2001:db8:85a3:1000:0004:000f:0005:0010"].

(** A running pool with the given entries and cursor, nothing logged. *)
Definition sampleStarted (pool : list string) (cursor : nat) : State :=
  mkState (mkPoolVars pool false cursor true (Some 5000)) (mkWorld [] 0 [] []).

Section Embedding.

(** [config], [process.platform] and the oracles. *)
Variable config : Config.
Variable platform : Platform.
Variable execReply : nat -> string -> ExecReply.   (* reply to the k-th command *)
Variable randomReply : nat -> Z.   (* Math.floor(Math.random() * 0xFFFFFFFF), k-th draw *)
Variable networkInterfaces : string -> bool.       (* !!os.networkInterfaces()[name] *)
Variable isIPv6 : string -> bool.                  (* net.isIPv6 *)
Variable parseURL : string -> option URL.          (* new URL(url); None: it throws *)
Variable axiosReply : nat -> AxiosCall -> Response + JsError.  (* k-th axios call *)

(** [promisify(exec)]: the promise resolves with the output or rejects. *)
Definition execAsync (cmd : string) : M string := fun st =>
  match execReply (length (execLog (world st))) cmd with
  | ExecOk out => (Returned out, log_exec cmd st)
  | ExecFail e => (Thrown e, log_exec cmd st)
  end.

Definition mathRandomPart : M Z := fun st =>
  (Returned (randomReply (randomDraws (world st))), log_random st).

Definition hextet (v : Z) : string := padStart 4 "0" (toString16 v).

Definition randomIPv6 : M string :=
  hostPart1 ← mathRandomPart;
  hostPart2 ← mathRandomPart;
  mret (ipv6Prefix config +:+ ":" +:+ ipv6Subnet config +:+ ":" +:+
        hextet (Z.land (Z.shiftr hostPart1 16) 0xFFFF) +:+ ":" +:+
        hextet (Z.land hostPart1 0xFFFF) +:+ ":" +:+
        hextet (Z.land (Z.shiftr hostPart2 16) 0xFFFF) +:+ ":" +:+
        hextet (Z.land hostPart2 0xFFFF)).

Definition checkInterface : M bool :=
  tryCatch
    (match platform with
     | darwin | win32 => mret (networkInterfaces (interface config))
     | linux =>
         stdout ← execAsync ("ip link show " +:+ interface config);
         mret (includes "state UP" stdout || includes "LOWER_UP" stdout)
     end)
    (fun _ => mret false).

Definition addCommand (ipv6 : string) : string :=
  match platform with
  | darwin => "sudo ifconfig " +:+ interface config +:+ " inet6 " +:+ ipv6 +:+ "/128 alias"
  | win32 => "netsh interface ipv6 add address " +:+ String dquote (interface config)
             +:+ String dquote " " +:+ ipv6 +:+ "/128"
  | linux => "ip -6 addr add " +:+ ipv6 +:+ "/128 dev " +:+ interface config
  end.

Definition removeCommand (ipv6 : string) : string :=
  match platform with
  | darwin => "sudo ifconfig " +:+ interface config +:+ " inet6 " +:+ ipv6 +:+ "/128 -alias"
  | win32 => "netsh interface ipv6 delete address " +:+ String dquote (interface config)
             +:+ String dquote " " +:+ ipv6
  | linux => "ip -6 addr del " +:+ ipv6 +:+ "/128 dev " +:+ interface config
  end.

(** [err.message && err.message.includes("File exists")]. *)
Definition fileExists (err : JsError) : bool :=
  match message err with
  | Some m => negb (String.eqb m EmptyString) && includes "File exists" m
  | None => false
  end.

Definition addIPv6ToInterface (ipv6 : string) : M bool :=
  tryCatch
    (execAsync (addCommand ipv6) ;; mret true)
    (fun err => if fileExists err then mret true else mret false).

Definition removeIPv6FromInterface (ipv6 : string) : M bool :=
  tryCatch
    (execAsync (removeCommand ipv6) ;; mret true)
    (fun _ => mret false).

(** The recursion of the source has no counter; [depth] is the number of
    activations the caller is prepared to wait for. An index outside the
    array reads [undefined], which [net.isIPv6] rejects. *)
Fixpoint getNextIPFromPool (depth : nat) : M (option string) := fun st =>
  match depth with
  | O => (Exhausted, st)
  | S depth' =>
      if negb (initialized (vars st)) || (length (ipPool (vars st)) =? 0)%nat
      then (Returned None, st)
      else
        let index := currentIPIndex (vars st) in
        let st1 := set_currentIPIndex
                     ((currentIPIndex (vars st) + 1) `mod` length (ipPool (vars st)))%nat st in
        match ipPool (vars st1) !! index with
        | Some ip => if isIPv6 ip then (Returned (Some ip), st1)
                     else getNextIPFromPool depth' st1
        | None => getNextIPFromPool depth' st1
        end
  end.

(** The replacement branch of [manageIPPool]: detach the oldest entries
    and repair the cursor; returns [ipsToRemove]. *)
Definition detachOldest (currentSize : Z) : M (list string) :=
  let numToRemove := Z.min (poolAddBatchSize config) currentSize in
  pool ← gets ipPool;
  let ipsToRemove := slice 0 (Some numToRemove) pool in
  modify (set_ipPool (slice numToRemove None pool)) ;;
  index ← gets currentIPIndex;
  pool' ← gets ipPool;
  (if (length pool' <=? index)%nat && (0 <? length pool')%nat
   then modify (set_currentIPIndex 0) else mret tt) ;;
  mret ipsToRemove.

(** The body of the growth loop: one generated address, kept when the
    interface accepted it. *)
Definition addOne (addedIPs : list string) : M (list string) :=
  newIP ← randomIPv6;
  success ← addIPv6ToInterface newIP;
  mret (if success : bool then addedIPs ++ [newIP] else addedIPs).

Definition manageIPPool : M unit :=
  busy ← gets poolMutex;
  if busy : bool then mret tt else
  modify (set_poolMutex true) ;;
  tryFinally
    (pool ← gets ipPool;
     let currentSize := Z.of_nat (length pool) in
     let needToAdd := currentSize <? desiredPoolSize config in
     let batchTarget :=
       Z.min (poolAddBatchSize config) (desiredPoolSize config - currentSize) in
     let shouldReplace := currentSize >=? desiredPoolSize config in
     ipsToRemove ← (if shouldReplace then detachOldest currentSize else mret []);
     (if (0 <? length ipsToRemove)%nat
      then forOf ipsToRemove (fun ip => removeIPv6FromInterface ip ;; mret tt)
      else mret tt) ;;
     if needToAdd && (0 <? batchTarget)
     then
       addedIPs ← forCount (Z.to_nat batchTarget) addOne [];
       if (0 <? length addedIPs)%nat
       then pool' ← gets ipPool; modify (set_ipPool (pool' ++ addedIPs))
       else mret tt
     else mret tt)
    (modify (set_poolMutex false)).

Definition initIPv6Pool : M bool :=
  init ← gets initialized;
  if init : bool then mret true else
  if negb (truthy (Some (ipv6Prefix config))) || negb (truthy (Some (ipv6Subnet config)))
  then mret false else
  interfaceOk ← checkInterface;
  if negb interfaceOk then mret false else
  manageIPPool ;;
  modify (set_poolTimer (Some (poolManageInterval config))) ;;
  modify (set_initialized true) ;;
  mret true.

Definition stopIPv6Pool : M unit :=
  init ← gets initialized;
  if negb init then mret tt else
  timer ← gets poolTimer;
  (if timer : option Z is Some _ then modify (set_poolTimer None) else mret tt) ;;
  pool ← gets ipPool;
  forOf pool (fun ip => removeIPv6FromInterface ip ;; mret tt) ;;
  modify (set_ipPool []) ;;
  modify (set_currentIPIndex 0) ;;
  modify (set_initialized false).

Definition isIPv6RotationEnabled (v : PoolVars) : bool :=
  initialized v && (0 <? length (ipPool v))%nat.

Record PoolInfo := mkPoolInfo {
  enabled : bool;
  poolSize : nat;
  infoInterface : string;
  prefix : string;
}.

Definition getIPv6PoolInfo (v : PoolVars) : PoolInfo :=
  mkPoolInfo (initialized v) (length (ipPool v)) (interface config) (ipv6Prefix config).

(** ** The dispatcher ([ipv6proxy.ts]) *)

Definition axios (call : AxiosCall) : M Response := fun st =>
  match axiosReply (length (axiosLog (world st))) call with
  | inl response => (Returned response, log_axios call st)
  | inr error => (Thrown error, log_axios call st)
  end.

(** [new URL(url)] throws a [TypeError] on a string it cannot parse. *)
Definition newURL (url : string) : M URL := fun st =>
  match parseURL url with
  | Some u => (Returned u, st)
  | None => (Thrown (mkJsError (Some "ERR_INVALID_URL") (Some "Invalid URL")), st)
  end.

Definition createIPv6Agent (ipv6 : string) (isHttps : bool) : Agent :=
  mkAgent isHttps true 30000 ipv6.

(** [error.code === 'EADDRNOTAVAIL' || error.code === 'ENETUNREACH']. *)
Definition isAddressFailure (error : JsError) : bool :=
  match code error with
  | Some c => String.eqb c "EADDRNOTAVAIL" || String.eqb c "ENETUNREACH"
  | None => false
  end.

(** The configuration of the bound request:
    [{...options, url, httpAgent, httpsAgent}]. *)
Definition boundConfig (url : string) (options : AxiosRequestConfig)
    (isHttps : bool) (agent : Agent) : AxiosRequestConfig :=
  mkAxiosConfig (Some url)
                (if negb isHttps then Some agent else None)
                (if isHttps then Some agent else None)
                (cfgTimeout options) (cfgOther options).

(** [ipv6 || getNextIPFromPool()]: the pool is asked only when no address
    was handed in. *)
Definition selectSource (depth : nat) (ipv6 : option string) : M (option string) :=
  if truthy ipv6 then mret ipv6 else getNextIPFromPool depth.

Definition requestWithIPv6 (depth : nat) (url : string)
    (options : AxiosRequestConfig) (ipv6 : option string) : M Response :=
  v ← gets id;
  if negb (isIPv6RotationEnabled v) && negb (truthy ipv6)
  then axios (AxiosUrl url options) else
  sourceIp ← selectSource depth ipv6;
  if negb (truthy sourceIp) then axios (AxiosUrl url options) else
  let sourceIp := default EmptyString sourceIp in
  parsedUrl ← newURL url;
  let isHttps := String.eqb (protocol parsedUrl) "https:" in
  let agent := createIPv6Agent sourceIp isHttps in
  tryCatch
    (axios (AxiosCfg (boundConfig url options isHttps agent)))
    (fun error =>
       if isAddressFailure error then axios (AxiosUrl url options)
       else throw error).

(** [requestFn(options, callback)], for [http.request] and
    [https.request] alike: Node refuses a local address that [net.isIP]
    does not recognise (neither IPv4 nor IPv6) by throwing
    [ERR_INVALID_IP_ADDRESS] from the call itself, and no request is
    opened; otherwise the request object is created.  The consumer
    callback and the logging error handler are not modelled. *)
Definition isIP (address : string) : bool := isIPv4 address || isIPv6 address.

Definition openRequest (isHttps : bool) (options : RequestOptions) : M ClientRequest :=
  fun st =>
    let req := mkClientRequest isHttps options in
    match roLocalAddress options with
    | Some address =>
        if isIP address then (Returned req, log_stream req st)
        else (Thrown (mkJsError (Some "ERR_INVALID_IP_ADDRESS")
                        (Some ("Invalid IP address: " +:+ address))), st)
    | None => (Returned req, log_stream req st)
    end.

Definition createIPv6StreamRequest (depth : nat) (method url : string)
    (headers : list (string * string)) (ipv6 : option string) : M ClientRequest :=
  uri ← newURL url;
  let isHttps := String.eqb (protocol uri) "https:" in
  v ← gets id;
  sourceIp ← (if truthy ipv6 then mret ipv6
              else if isIPv6RotationEnabled v then getNextIPFromPool depth
              else mret None);
  let options :=
    mkRequestOptions (hostname uri)
      (if truthy (Some (port uri)) then inl (port uri)
       else inr (if isHttps then 443 else 80))
      (pathname uri +:+ search uri) method headers
      (if truthy sourceIp then sourceIp else None)
      None None in
  openRequest isHttps options.

(** ** Drivers used to state the properties *)

(** What [addIPv6ToInterface] answers, read off the reply to its command. *)
Definition addAnswer (reply : ExecReply) : bool :=
  match reply with
  | ExecOk _ => true
  | ExecFail err => fileExists err
  end.

(** What an [axios] call becomes for its caller. *)
Definition axiosOutcome (reply : Response + JsError) : Outcome Response :=
  match reply with
  | inl response => Returned response
  | inr error => Thrown error
  end.

(** The address [randomIPv6] builds from the draws numbered [k] and [k+1]. *)
Definition generated (k : nat) : string :=
  let hostPart1 := randomReply k in
  let hostPart2 := randomReply (S k) in
  ipv6Prefix config +:+ ":" +:+ ipv6Subnet config +:+ ":" +:+
  hextet (Z.land (Z.shiftr hostPart1 16) 0xFFFF) +:+ ":" +:+
  hextet (Z.land hostPart1 0xFFFF) +:+ ":" +:+
  hextet (Z.land (Z.shiftr hostPart2 16) 0xFFFF) +:+ ":" +:+
  hextet (Z.land hostPart2 0xFFFF).

(** [k] successive calls of [getNextIPFromPool], results in call order. *)
Fixpoint callNext (depth k : nat) : M (list (option string)) :=
  match k with
  | O => mret []
  | S k' =>
      r ← getNextIPFromPool depth;
      rs ← callNext depth k';
      mret (r :: rs)
  end.

(** The entry points other modules (and the interval timer) can call. *)
Inductive Op :=
| CallInit
| CallManage
| CallNext (depth : nat)
| CallStop
| CallRequest (depth : nat) (url : string) (options : AxiosRequestConfig)
              (ipv6 : option string)
| CallStream (depth : nat) (method url : string)
             (headers : list (string * string)) (ipv6 : option string).

Definition runOp (op : Op) (st : State) : State :=
  match op with
  | CallInit => snd (initIPv6Pool st)
  | CallManage => snd (manageIPPool st)
  | CallNext depth => snd (getNextIPFromPool depth st)
  | CallStop => snd (stopIPv6Pool st)
  | CallRequest depth url options ipv6 => snd (requestWithIPv6 depth url options ipv6 st)
  | CallStream depth method url headers ipv6 =>
      snd (createIPv6StreamRequest depth method url headers ipv6 st)
  end.

Definition runOps (ops : list Op) (st : State) : State :=
  foldl (fun s op => runOp op s) st ops.

(** The states the process can be in: those a sequence of calls leads to
    from the freshly loaded module. *)
Inductive reachable : State -> Prop :=
| reachable_initial : reachable initialState
| reachable_step st op : reachable st -> reachable (runOp op st).

(** The pool never outgrows the target (read as 0 when it is negative),
    and no pass is left in flight between two calls. *)
Definition poolInv (v : PoolVars) : Prop :=
  poolMutex v = false
  /\ (Z.of_nat (length (ipPool v)) <= Z.max 0 (desiredPoolSize config))%Z.

(** The cursor invariant of the data model. *)
Definition cursorInRange (v : PoolVars) : Prop :=
  (0 < length (ipPool v))%nat -> (currentIPIndex v < length (ipPool v))%nat.

(** The addresses a growth loop of [n] rounds generates when it starts
    with [r] random draws behind it. *)
Definition tried (r n : nat) : list string :=
  map (fun i => generated (r + 2 * i)) (seq 0 n).

(** Those of them that the interface accepts, the loop starting when [e]
    commands have been logged. *)
Fixpoint accepted (e r n : nat) : list string :=
  match n with
  | O => []
  | S n' =>
      (if addAnswer (execReply e (addCommand (generated r)))
       then [generated r] else [])
      ++ accepted (S e) (S (S r)) n'
  end.

(** The states of a process whose calls follow one another: every call
    of an exported function and every tick of the interval timer runs to
    completion, all its awaits resolved, before the next call or tick
    begins. [manageIPPool] is not exported: apart from [initIPv6Pool],
    only the interval timer calls it, and the timer exists while
    [poolTimer] is set. A call that begins while another one is
    suspended at an await ([stopIPv6Pool] during a pass that waits for
    its add command, say) leads to states outside this relation. *)
Inductive reachableInTurn : State -> Prop :=
| inTurn_initial : reachableInTurn initialState
| inTurn_tick st :
    reachableInTurn st -> poolTimer (vars st) <> None ->
    reachableInTurn (runOp CallManage st)
| inTurn_call st op :
    reachableInTurn st -> op <> CallManage -> reachableInTurn (runOp op st).

(** The cursor is in range, or the pool is empty and the cursor is either
    0 or a leftover that a full refill will cover. *)
Definition cursorSafe (v : PoolVars) : Prop :=
  (currentIPIndex v < length (ipPool v))%nat
  \/ (ipPool v = []
      /\ (currentIPIndex v = 0%nat
          \/ (desiredPoolSize config <= poolAddBatchSize config
              /\ Z.of_nat (currentIPIndex v) < desiredPoolSize config))).

(** Between two calls: no pass in flight, a pool that is not initialized
    is as the module loaded it, and an initialized one has its timer. *)
Definition lifeCycleInv (v : PoolVars) : Prop :=
  poolMutex v = false
  /\ (initialized v = false -> v = initialVars)
  /\ (initialized v = true -> poolTimer v = Some (poolManageInterval config)).

(** * Properties *)

(** ** The monad and the interface controller *)

Ltac munfold :=
  unfold mbind, mret, M_bind, M_ret, gets, modify, tryCatch, tryFinally, throw in *.

(** ** Substrings *)

Lemma prefix_spec p : forall s,
  String.prefix p s = true <-> exists r, s = p +:+ r.
Proof.
  induction p as [|c p IH]; intros s; simpl.
  - split; [by exists s | by destruct s].
  - destruct s as [|d s]; simpl; [split; [done | by intros [r ?]]|].
    destruct (ascii_dec c d) as [->|Hne].
    + rewrite IH. split; intros [r Hr]; exists r; [by rewrite Hr | by injection Hr].
    + split; [done | intros [r Hr]; injection Hr; congruence].
Qed.

(** [includes] is the substring test. *)
Lemma includes_spec needle : forall hay,
  includes needle hay = true <-> exists pre post, hay = pre +:+ needle +:+ post.
Proof.
  induction hay as [|c hay IH]; cbn [includes].
  - rewrite orb_false_r, prefix_spec. split.
    + intros [r Hr]. by exists EmptyString, r.
    + intros ([|d pre] & post & H); [by exists post | done].
  - rewrite orb_true_iff, prefix_spec, IH. split.
    + intros [[r Hr]|(pre & post & Hr)].
      * by exists EmptyString, r.
      * exists (String c pre), post. by rewrite Hr.
    + intros ([|d pre] & post & H).
      * left. by exists post.
      * right. injection H as -> ->. by exists pre, post.
Qed.

(** ** The shell log *)

Lemma log_execs_nil st : log_execs [] st = st.
Proof.
  destruct st as [v [e r a s]]. unfold log_execs; simpl. by rewrite app_nil_r.
Qed.

Lemma log_execs_cons cmd cmds st :
  log_execs cmds (log_exec cmd st) = log_execs (cmd :: cmds) st.
Proof.
  unfold log_execs, log_exec; simpl. by rewrite <- app_assoc.
Qed.

Lemma removeIPv6FromInterface_run ip st :
  exists b, removeIPv6FromInterface ip st = (Returned b, log_exec (removeCommand ip) st).
Proof.
  unfold removeIPv6FromInterface, execAsync. munfold.
  destruct (execReply _ _); eauto.
Qed.

(** The removal loops of [manageIPPool] and [stopIPv6Pool] go through the
    whole list, whatever the individual removals answer. *)
Lemma removal_loop_run l st :
  forOf l (fun ip => removeIPv6FromInterface ip ;; mret tt) st
  = (Returned tt, log_execs (map removeCommand l) st).
Proof.
  revert st. induction l as [|ip l IH]; intros st; simpl.
  - by rewrite log_execs_nil.
  - munfold. destruct (removeIPv6FromInterface_run ip st) as [b ->].
    fold (@mret M _ unit tt). munfold.
    rewrite IH. by rewrite log_execs_cons.
Qed.

Lemma addIPv6ToInterface_run ipv6 st :
  addIPv6ToInterface ipv6 st
  = (Returned (addAnswer (execReply (length (execLog (world st))) (addCommand ipv6))),
     log_exec (addCommand ipv6) st).
Proof.
  unfold addIPv6ToInterface, execAsync, addAnswer. munfold.
  destruct (execReply _ _) as [out|err]; [done|].
  by destruct (fileExists err).
Qed.

(** ** The growth loop *)

Lemma randomIPv6_run st :
  randomIPv6 st
  = (Returned (generated (randomDraws (world st))), log_random (log_random st)).
Proof. reflexivity. Qed.

Lemma addOne_run acc st :
  exists st',
    addOne acc st
    = (Returned (if addAnswer (execReply (length (execLog (world st)))
                                 (addCommand (generated (randomDraws (world st)))))
                 then acc ++ [generated (randomDraws (world st))] else acc), st')
    /\ vars st' = vars st
    /\ execLog (world st')
       = execLog (world st) ++ [addCommand (generated (randomDraws (world st)))].
Proof.
  unfold addOne. munfold. rewrite randomIPv6_run.
  rewrite addIPv6ToInterface_run. simpl. eauto.
Qed.

(** The loop returns the accumulator extended by at most [n] addresses
    (exactly [n] when every command is accepted), leaves the pool
    variables alone and only appends to the command log. *)
Lemma growth_loop_run n : forall acc st,
  exists new later st',
    forCount n addOne acc st = (Returned (acc ++ new), st')
    /\ vars st' = vars st
    /\ execLog (world st') = execLog (world st) ++ later
    /\ (length new <= n)%nat
    /\ ((forall k cmd, addAnswer (execReply k cmd) = true) -> length new = n).
Proof.
  induction n as [|n IH]; intros acc st; simpl.
  - exists [], [], st. rewrite !app_nil_r. repeat split; auto.
  - munfold. destruct (addOne_run acc st) as (st1 & -> & Hv1 & Hl1).
    remember (addAnswer (execReply (length (execLog (world st)))
                (addCommand (generated (randomDraws (world st)))))) as ok eqn:Hok.
    destruct (IH (if ok then acc ++ [generated (randomDraws (world st))] else acc) st1)
      as (new & later & st2 & -> & Hv2 & Hl2 & Hlen & Hall).
    destruct ok.
    + exists (generated (randomDraws (world st)) :: new),
             (addCommand (generated (randomDraws (world st))) :: later), st2.
      rewrite <- app_assoc. simpl. repeat split.
      * congruence.
      * rewrite Hl2, Hl1, <- app_assoc. reflexivity.
      * lia.
      * intros H. rewrite (Hall H). reflexivity.
    + exists new, (addCommand (generated (randomDraws (world st))) :: later), st2.
      repeat split.
      * congruence.
      * rewrite Hl2, Hl1, <- app_assoc. reflexivity.
      * lia.
      * intros H. rewrite H in Hok. discriminate.
Qed.

(** ** One reconciliation pass *)

Lemma manageIPPool_busy st :
  poolMutex (vars st) = true -> manageIPPool st = (Returned tt, st).
Proof. intros H. unfold manageIPPool. munfold. by rewrite H. Qed.

Lemma manageIPPool_run st :
  poolMutex (vars st) = false ->
  let pool := ipPool (vars st) in
  let currentSize := Z.of_nat (length pool) in
  let replace := currentSize >=? desiredPoolSize config in
  let numToRemove := Z.min (poolAddBatchSize config) currentSize in
  let batchTarget :=
    Z.min (poolAddBatchSize config) (desiredPoolSize config - currentSize) in
  let kept := if replace then slice numToRemove None pool else pool in
  let removed := if replace then slice 0 (Some numToRemove) pool else [] in
  let target := if (currentSize <? desiredPoolSize config) && (0 <? batchTarget)
                then Z.to_nat batchTarget else 0%nat in
  exists new later st',
    manageIPPool st = (Returned tt, st')
    /\ ipPool (vars st') = kept ++ new
    /\ (length new <= target)%nat
    /\ ((forall k cmd, addAnswer (execReply k cmd) = true) -> length new = target)
    /\ currentIPIndex (vars st')
       = (if replace && (length kept <=? currentIPIndex (vars st))%nat
             && (0 <? length kept)%nat
          then 0%nat else currentIPIndex (vars st))
    /\ poolMutex (vars st') = false
    /\ initialized (vars st') = initialized (vars st)
    /\ poolTimer (vars st') = poolTimer (vars st)
    /\ execLog (world st') = execLog (world st) ++ map removeCommand removed ++ later
    /\ (target = 0%nat -> later = []).
Proof.
  intros Hm. cbv zeta.
  destruct st as [[pool mutex idx init timer] w]. simpl in Hm. subst mutex. simpl.
  destruct (Z.of_nat (length pool) >=? desiredPoolSize config) eqn:Hrep.
  - assert (Hlt : (Z.of_nat (length pool) <? desiredPoolSize config) = false) by lia.
    rewrite Hlt. simpl.
    set (num := poolAddBatchSize config `min` Z.of_nat (length pool)).
    pose proof (fun s => removal_loop_run (slice 0 (Some num) pool) s) as Hloop.
    unfold manageIPPool, detachOldest. munfold. simpl. rewrite Hrep, Hlt. simpl.
    fold num.
    exists [], [].
    destruct ((length (slice num None pool) <=? idx)%nat
              && (0 <? length (slice num None pool))%nat) eqn:Hc; simpl.
    + destruct (0 <? length (slice 0 (Some num) pool))%nat eqn:Hn.
      * rewrite Hloop. simpl. eexists. split; [reflexivity|]. simpl.
        rewrite !app_nil_r. repeat split; auto.
      * eexists. split; [reflexivity|]. simpl.
        apply Nat.ltb_ge in Hn.
        destruct (slice 0 (Some num) pool); [|simpl in Hn; lia].
        simpl. rewrite !app_nil_r. repeat split; auto.
    + destruct (0 <? length (slice 0 (Some num) pool))%nat eqn:Hn.
      * rewrite Hloop. simpl. eexists. split; [reflexivity|]. simpl.
        rewrite !app_nil_r. repeat split; auto.
      * eexists. split; [reflexivity|]. simpl.
        apply Nat.ltb_ge in Hn.
        destruct (slice 0 (Some num) pool); [|simpl in Hn; lia].
        simpl. rewrite !app_nil_r. repeat split; auto.
  - assert (Hlt : (Z.of_nat (length pool) <? desiredPoolSize config) = true) by lia.
    rewrite Hlt. simpl.
    set (bt := poolAddBatchSize config `min` (desiredPoolSize config - Z.of_nat (length pool))).
    unfold manageIPPool. munfold. simpl. rewrite Hrep, Hlt. simpl. fold bt.
    destruct (0 <? bt) eqn:Hbt.
    + pose proof (growth_loop_run (Z.to_nat bt) []) as Hg. munfold.
      match goal with |- context [forCount _ addOne [] ?s] =>
        destruct (Hg s) as (new & later & st2 & -> & Hv & Hl & Hlen & Hall) end.
      simpl. exists new, later.
      destruct st2 as [v2 w2]. simpl in *. subst v2.
      destruct (0 <? length new)%nat eqn:Hn; simpl.
      * eexists. split; [reflexivity|]. simpl. repeat split; auto. lia.
      * eexists. split; [reflexivity|]. simpl.
        apply Nat.ltb_ge in Hn. destruct new; [|simpl in Hn; lia].
        rewrite app_nil_r. repeat split; auto. lia.
    + exists [], []. eexists. split; [reflexivity|]. simpl.
      rewrite !app_nil_r. repeat split; auto.
Qed.

(** ** Round-robin selection *)

Lemma set_currentIPIndex_same st :
  set_currentIPIndex (currentIPIndex (vars st)) st = st.
Proof. by destruct st as [[] ?]. Qed.

Lemma set_currentIPIndex_twice i j st :
  set_currentIPIndex i (set_currentIPIndex j st) = set_currentIPIndex i st.
Proof. reflexivity. Qed.

(** [getNextIPFromPool] writes the cursor and nothing else. *)
Lemma getNextIPFromPool_frame depth : forall st,
  exists i, snd (getNextIPFromPool depth st) = set_currentIPIndex i st.
Proof.
  induction depth as [|depth IH]; intros st; simpl.
  - exists (currentIPIndex (vars st)). by rewrite set_currentIPIndex_same.
  - destruct (negb (initialized (vars st)) || (length (ipPool (vars st)) =? 0)%nat).
    + exists (currentIPIndex (vars st)). by rewrite set_currentIPIndex_same.
    + set (st1 := set_currentIPIndex _ st).
      destruct (ipPool (vars st) !! currentIPIndex (vars st)) as [ip|].
      * destruct (isIPv6 ip); [by eexists|].
        destruct (IH st1) as [i ->]. by exists i.
      * destruct (IH st1) as [i ->]. by exists i.
Qed.

(** A valid entry under the cursor is returned at once. *)
Lemma getNextIPFromPool_hit depth st ip :
  initialized (vars st) = true ->
  ipPool (vars st) !! currentIPIndex (vars st) = Some ip ->
  isIPv6 ip = true ->
  getNextIPFromPool (S depth) st
  = (Returned (Some ip),
     set_currentIPIndex
       ((currentIPIndex (vars st) + 1) `mod` length (ipPool (vars st)))%nat st).
Proof.
  intros Hi Hl Hv. simpl. rewrite Hi. simpl.
  apply lookup_lt_Some in Hl as Hlt.
  destruct (length (ipPool (vars st)) =? 0)%nat eqn:E; [apply Nat.eqb_eq in E; lia|].
  by rewrite Hl, Hv.
Qed.

(** An entry that is missing or invalid sends the call one level down. *)
Lemma getNextIPFromPool_skip depth st :
  initialized (vars st) = true ->
  (0 < length (ipPool (vars st)))%nat ->
  (forall ip, ipPool (vars st) !! currentIPIndex (vars st) = Some ip -> isIPv6 ip = false) ->
  getNextIPFromPool (S depth) st
  = getNextIPFromPool depth
      (set_currentIPIndex
         ((currentIPIndex (vars st) + 1) `mod` length (ipPool (vars st)))%nat st).
Proof.
  intros Hi Hn Hbad. simpl. rewrite Hi. simpl.
  destruct (length (ipPool (vars st)) =? 0)%nat eqn:E; [apply Nat.eqb_eq in E; lia|].
  destruct (ipPool (vars st) !! currentIPIndex (vars st)) as [ip|] eqn:Hl; [|done].
  by rewrite (Hbad ip eq_refl).
Qed.

(** A call that came back comes back the same with a larger budget. *)
Lemma getNextIPFromPool_mono depth : forall depth' st r st',
  getNextIPFromPool depth st = (Returned r, st') ->
  (depth <= depth')%nat ->
  getNextIPFromPool depth' st = (Returned r, st').
Proof.
  induction depth as [|depth IH]; intros depth' st r st' H Hle; [discriminate|].
  destruct depth' as [|depth']; [lia|].
  simpl in *.
  destruct (negb (initialized (vars st)) || (length (ipPool (vars st)) =? 0)%nat); [done|].
  destruct (ipPool (vars st) !! currentIPIndex (vars st)) as [ip|].
  - destruct (isIPv6 ip); [done|]. apply IH; [done | lia].
  - apply IH; [done | lia].
Qed.

(** [k] calls on a pool of valid entries walk the pool from the cursor. *)
Lemma callNext_walk depth k : forall st,
  initialized (vars st) = true ->
  (currentIPIndex (vars st) < length (ipPool (vars st)))%nat ->
  Forall (fun ip => isIPv6 ip = true) (ipPool (vars st)) ->
  callNext (S depth) k st
  = (Returned (map (fun i => ipPool (vars st)
                       !! ((currentIPIndex (vars st) + i) `mod` length (ipPool (vars st)))%nat)
                   (seq 0 k)),
     set_currentIPIndex
       ((currentIPIndex (vars st) + k) `mod` length (ipPool (vars st)))%nat st).
Proof.
  induction k as [|k IH]; intros st Hi Hc Hv.
  - simpl. munfold. rewrite Nat.add_0_r, Nat.mod_small by done.
    by rewrite set_currentIPIndex_same.
  - cbn [callNext]. munfold.
    destruct (lookup_lt_is_Some_2 _ _ Hc) as [ip Hip].
    rewrite (getNextIPFromPool_hit depth st ip Hi Hip).
    2:{ rewrite Forall_lookup in Hv. by apply (Hv _ _ Hip). }
    set (n := length (ipPool (vars st))) in *.
    set (c := currentIPIndex (vars st)) in *.
    rewrite IH; [|done| simpl; apply Nat.mod_upper_bound; lia | done].
    rewrite set_currentIPIndex_twice. simpl. fold n c. f_equal.
    + f_equal. f_equal.
      * by rewrite Nat.add_0_r, Nat.mod_small.
      * rewrite <- seq_shift, map_map. apply map_ext. intros i.
        f_equal. rewrite Nat.Div0.add_mod_idemp_l. f_equal. lia.
    + f_equal. rewrite Nat.Div0.add_mod_idemp_l. f_equal. lia.
Qed.

Lemma walk_full_cycle (l : list string) c :
  (c < length l)%nat ->
  map (fun i => l !! ((c + i) `mod` length l)%nat) (seq 0 (length l))
  = map Some (drop c l ++ take c l).
Proof.
  intros Hc.
  replace (drop c l ++ take c l) with (rotate c l)
    by (unfold rotate; by rewrite Nat.mod_small).
  apply list_eq. intros i. rewrite !list_lookup_fmap.
  destruct (decide (i < length l)%nat) as [Hi|Hi].
  - rewrite lookup_seq_lt by done. rewrite lookup_rotate_r by done. simpl.
    replace (rotate_nat_add c i (length l)) with ((c + i) `mod` length l)%nat.
    2:{ unfold rotate_nat_add. rewrite <- Nat2Z.inj_add, <- Nat2Z.inj_mod.
        by rewrite Nat2Z.id. }
    assert ((c + i) `mod` length l < length l)%nat as Hlt
      by (apply Nat.mod_upper_bound; lia).
    by destruct (lookup_lt_is_Some_2 _ _ Hlt) as [x ->].
  - rewrite lookup_seq_ge by lia.
    rewrite (lookup_ge_None_2 (rotate c l)) by (rewrite length_rotate; lia).
    done.
Qed.

Lemma callNext_app depth a : forall b st,
  callNext depth (a + b) st
  = (ra ← callNext depth a; rb ← callNext depth b; mret (ra ++ rb)) st.
Proof.
  induction a as [|a IH]; intros b st.
  - simpl. munfold. by destruct (callNext depth b st) as [[]].
  - cbn [Nat.add callNext]. munfold.
    destruct (getNextIPFromPool depth st) as [[r| |] st1]; [|done..].
    rewrite IH. munfold.
    destruct (callNext depth a st1) as [[ra| |] st2]; [|done..].
    by destruct (callNext depth b st2) as [[rb| |] st3].
Qed.

Lemma next_one_cycle depth st :
  initialized (vars st) = true ->
  (currentIPIndex (vars st) < length (ipPool (vars st)))%nat ->
  Forall (fun ip => isIPv6 ip = true) (ipPool (vars st)) ->
  callNext (S depth) (length (ipPool (vars st))) st
  = (Returned (map Some (drop (currentIPIndex (vars st)) (ipPool (vars st))
                         ++ take (currentIPIndex (vars st)) (ipPool (vars st)))),
     st).
Proof.
  intros Hi Hc Hv. rewrite callNext_walk by done.
  rewrite walk_full_cycle by done. f_equal.
  rewrite <- (Nat.mul_1_l (length (ipPool (vars st)))) at 1.
  rewrite Nat.Div0.mod_add, Nat.mod_small by done.
  apply set_currentIPIndex_same.
Qed.

Lemma next_many_cycles depth st m :
  initialized (vars st) = true ->
  (currentIPIndex (vars st) < length (ipPool (vars st)))%nat ->
  Forall (fun ip => isIPv6 ip = true) (ipPool (vars st)) ->
  callNext (S depth) (m * length (ipPool (vars st))) st
  = (Returned (concat (replicate m
       (map Some (drop (currentIPIndex (vars st)) (ipPool (vars st))
                  ++ take (currentIPIndex (vars st)) (ipPool (vars st)))))),
     st).
Proof.
  intros Hi Hc Hv. induction m as [|m IH]; [done|].
  cbn [Nat.mul]. rewrite callNext_app. munfold.
  rewrite next_one_cycle by done. by rewrite IH.
Qed.

(** ** Skipping invalid entries *)

(** On a pool without a valid entry no budget is enough. *)
Lemma next_all_invalid depth : forall st,
  initialized (vars st) = true ->
  (0 < length (ipPool (vars st)))%nat ->
  Forall (fun ip => isIPv6 ip = false) (ipPool (vars st)) ->
  fst (getNextIPFromPool depth st) = Exhausted.
Proof.
  induction depth as [|depth IH]; intros st Hi Hn Hbad; [done|].
  rewrite getNextIPFromPool_skip; [by apply IH | done | done |].
  intros ip Hip. rewrite Forall_lookup in Hbad. by apply (Hbad _ _ Hip).
Qed.

(** A valid entry [dist] places after an in-range cursor is reached, or
    an earlier valid one is, within [dist + 1] activations. *)
Lemma next_finds dist : forall st,
  initialized (vars st) = true ->
  (currentIPIndex (vars st) < length (ipPool (vars st)))%nat ->
  (exists ip, ipPool (vars st)
                !! ((currentIPIndex (vars st) + dist) `mod` length (ipPool (vars st)))%nat
              = Some ip /\ isIPv6 ip = true) ->
  exists ip st',
    getNextIPFromPool (S dist) st = (Returned (Some ip), st')
    /\ isIPv6 ip = true /\ ip ∈ ipPool (vars st).
Proof.
  induction dist as [|dist IH]; intros st Hi Hc (ip & Hip & Hv).
  - rewrite Nat.add_0_r, Nat.mod_small in Hip by done.
    eexists ip, _. split; [by apply getNextIPFromPool_hit|].
    split; [done|]. by apply list_elem_of_lookup_2 in Hip.
  - destruct (lookup_lt_is_Some_2 _ _ Hc) as [ip0 Hip0].
    destruct (isIPv6 ip0) eqn:Hv0.
    + eexists ip0, _. split; [by apply getNextIPFromPool_hit|].
      split; [done|]. by apply list_elem_of_lookup_2 in Hip0.
    + rewrite getNextIPFromPool_skip; [|done|lia|].
      2:{ intros ip' Hip'. congruence. }
      destruct (IH (set_currentIPIndex
                      ((currentIPIndex (vars st) + 1) `mod` length (ipPool (vars st)))%nat st))
        as (ip' & st' & Hrun & Hv' & Hin);
        [done | simpl; apply Nat.mod_upper_bound; lia | | by exists ip', st'].
      exists ip. split; [|done]. simpl.
      rewrite Nat.Div0.add_mod_idemp_l.
      by replace (currentIPIndex (vars st) + 1 + dist)%nat
        with (currentIPIndex (vars st) + S dist)%nat by lia.
Qed.

(** With a valid entry somewhere in the pool, the call comes back with a
    valid entry within [length pool + 1] activations. *)
Lemma next_returns_valid st j ip depth :
  initialized (vars st) = true ->
  ipPool (vars st) !! j = Some ip ->
  isIPv6 ip = true ->
  (length (ipPool (vars st)) + 1 <= depth)%nat ->
  exists ip' st',
    getNextIPFromPool depth st = (Returned (Some ip'), st')
    /\ isIPv6 ip' = true /\ ip' ∈ ipPool (vars st).
Proof.
  intros Hi Hj Hv Hd.
  apply lookup_lt_Some in Hj as Hjn.
  set (n := length (ipPool (vars st))) in *.
  assert (Hreach : forall st0, vars st0 = vars st \/
            (exists i, st0 = set_currentIPIndex i st) ->
          (currentIPIndex (vars st0) < n)%nat ->
          exists ip' st', getNextIPFromPool n st0 = (Returned (Some ip'), st')
             /\ isIPv6 ip' = true /\ ip' ∈ ipPool (vars st)).
  { intros st0 Hst0 Hc0.
    assert (ipPool (vars st0) = ipPool (vars st) /\ initialized (vars st0) = true)
      as [Hp0 Hi0] by (destruct Hst0 as [->|[i ->]]; done).
    set (c := currentIPIndex (vars st0)) in *.
    set (dist := ((j + n - c) `mod` n)%nat).
    assert (dist < n)%nat as Hdist by (apply Nat.mod_upper_bound; lia).
    destruct (next_finds dist st0) as (ip' & st' & Hrun & Hv' & Hin).
    - done.
    - by rewrite Hp0.
    - exists ip. split; [|done]. rewrite Hp0. fold n c.
      replace ((c + dist) `mod` n)%nat with j; [done|].
      unfold dist. rewrite Nat.Div0.add_mod_idemp_r.
      replace (c + (j + n - c))%nat with (j + 1 * n)%nat by lia.
      by rewrite Nat.Div0.mod_add, Nat.mod_small.
    - exists ip', st'. rewrite Hp0 in Hin. split; [|done].
      eapply getNextIPFromPool_mono; [done|lia]. }
  destruct (decide (currentIPIndex (vars st) < n)%nat) as [Hc|Hc].
  - destruct (Hreach st) as (ip' & st' & Hrun & ?); [by left | done |].
    exists ip', st'. split; [|done].
    eapply getNextIPFromPool_mono; [done|lia].
  - destruct depth as [|depth]; [lia|].
    rewrite getNextIPFromPool_skip; [|done|lia|].
    2:{ intros ip' Hip'. apply lookup_lt_Some in Hip'. fold n in Hip'. lia. }
    fold n.
    destruct (Hreach (set_currentIPIndex ((currentIPIndex (vars st) + 1) `mod` n)%nat st))
      as (ip' & st' & Hrun & ?).
    + right. by eexists.
    + simpl. apply Nat.mod_upper_bound. lia.
    + exists ip', st'. split; [|done].
      eapply getNextIPFromPool_mono; [done|lia].
Qed.

(** ** The dispatcher *)

Lemma axios_run call st :
  axios call st
  = (axiosOutcome (axiosReply (length (axiosLog (world st))) call), log_axios call st).
Proof. unfold axios, axiosOutcome. by destruct (axiosReply _ _). Qed.

Lemma selectSource_frame depth ipv6 st :
  exists i, snd (selectSource depth ipv6 st) = set_currentIPIndex i st.
Proof.
  unfold selectSource. destruct (truthy ipv6).
  - exists (currentIPIndex (vars st)). by rewrite set_currentIPIndex_same.
  - apply getNextIPFromPool_frame.
Qed.

(** The bound request and what follows it, from the state in which the
    source address has been chosen. *)
Lemma requestWithIPv6_bound depth url options ipv6 st st1 sourceIp parsedUrl :
  (isIPv6RotationEnabled (vars st) || truthy ipv6) = true ->
  selectSource depth ipv6 st = (Returned (Some sourceIp), st1) ->
  truthy (Some sourceIp) = true ->
  parseURL url = Some parsedUrl ->
  let isHttps := String.eqb (protocol parsedUrl) "https:" in
  let bound := AxiosCfg (boundConfig url options isHttps (createIPv6Agent sourceIp isHttps)) in
  requestWithIPv6 depth url options ipv6 st
  = match axiosReply (length (axiosLog (world st1))) bound with
    | inl response => (Returned response, log_axios bound st1)
    | inr error =>
        if isAddressFailure error
        then (axiosOutcome (axiosReply (S (length (axiosLog (world st1))))
                              (AxiosUrl url options)),
              log_axios (AxiosUrl url options) (log_axios bound st1))
        else (Thrown error, log_axios bound st1)
    end.
Proof.
  intros Hsel Hsrc Htr Hurl. cbv zeta.
  unfold requestWithIPv6. munfold.
  replace (negb (isIPv6RotationEnabled (id (vars st))) && negb (truthy ipv6))
    with false.
  2:{ unfold id. destruct (isIPv6RotationEnabled (vars st)), (truthy ipv6); done. }
  rewrite Hsrc, Htr. simpl. unfold newURL. rewrite Hurl.
  rewrite axios_run.
  destruct (axiosReply (length (axiosLog (world st1))) _) as [response|error]; simpl; [done|].
  destruct (isAddressFailure error); [|done].
  rewrite axios_run. simpl. do 2 f_equal.
  by rewrite length_app, Nat.add_1_r.
Qed.

(** ** Which variables each entry point writes *)

Lemma checkInterface_run st :
  exists b st', checkInterface st = (Returned b, st') /\ vars st' = vars st.
Proof.
  unfold checkInterface, execAsync. munfold.
  destruct platform; [by eauto..|].
  destruct (execReply _ _); by eauto.
Qed.

Lemma requestWithIPv6_vars depth url options ipv6 st :
  exists i, vars (snd (requestWithIPv6 depth url options ipv6 st))
            = vars (set_currentIPIndex i st).
Proof.
  unfold requestWithIPv6. munfold.
  destruct (negb (isIPv6RotationEnabled (id (vars st))) && negb (truthy ipv6)).
  { rewrite axios_run. exists (currentIPIndex (vars st)).
    by rewrite set_currentIPIndex_same. }
  destruct (selectSource_frame depth ipv6 st) as [i Hi].
  destruct (selectSource depth ipv6 st) as [[sourceIp| |] st1]; simpl in Hi; subst st1;
    [|by exists i..].
  exists i.
  destruct (negb (truthy sourceIp)); [by rewrite axios_run|].
  unfold newURL. destruct (parseURL url); [|done].
  rewrite axios_run.
  destruct (axiosOutcome _) as [r|e|]; simpl; [done| |done].
  destruct (isAddressFailure e); [by rewrite axios_run | done].
Qed.

Lemma openRequest_cases isHttps options st :
  (openRequest isHttps options st
   = (Returned (mkClientRequest isHttps options),
      log_stream (mkClientRequest isHttps options) st)
   /\ match roLocalAddress options with
      | Some address => isIP address = true
      | None => True
      end)
  \/ (exists address,
        roLocalAddress options = Some address /\ isIP address = false
        /\ openRequest isHttps options st
           = (Thrown (mkJsError (Some "ERR_INVALID_IP_ADDRESS")
                        (Some ("Invalid IP address: " +:+ address))), st)).
Proof.
  unfold openRequest.
  destruct (roLocalAddress options) as [address|]; [|by left].
  destruct (isIP address) eqn:Hip; [by left|right; by exists address].
Qed.

Lemma openRequest_vars isHttps options st :
  vars (snd (openRequest isHttps options st)) = vars st.
Proof.
  destruct (openRequest_cases isHttps options st) as [[-> _]|(a & _ & _ & ->)]; done.
Qed.

Lemma createIPv6StreamRequest_vars depth method url headers ipv6 st :
  exists i, vars (snd (createIPv6StreamRequest depth method url headers ipv6 st))
            = vars (set_currentIPIndex i st).
Proof.
  unfold createIPv6StreamRequest, newURL. munfold.
  destruct (parseURL url).
  2:{ exists (currentIPIndex (vars st)). by rewrite set_currentIPIndex_same. }
  destruct (truthy ipv6).
  { exists (currentIPIndex (vars st)).
    by rewrite openRequest_vars, set_currentIPIndex_same. }
  destruct (isIPv6RotationEnabled (id (vars st))).
  2:{ exists (currentIPIndex (vars st)).
      by rewrite openRequest_vars, set_currentIPIndex_same. }
  destruct (getNextIPFromPool_frame depth st) as [i Hi].
  destruct (getNextIPFromPool depth st) as [[sourceIp| |] st1]; simpl in Hi; subst st1;
    [|by exists i..].
  exists i. by rewrite openRequest_vars.
Qed.

Lemma stopIPv6Pool_run st :
  initialized (vars st) = true ->
  stopIPv6Pool st
  = (Returned tt,
     mkState (mkPoolVars [] (poolMutex (vars st)) 0 false None)
             (world (log_execs (map removeCommand (ipPool (vars st))) st))).
Proof.
  intros Hi. unfold stopIPv6Pool.
  pose proof (fun s => removal_loop_run (ipPool (vars st)) s) as Hloop.
  munfold. rewrite Hi. simpl.
  destruct (poolTimer (vars st)) eqn:Ht; simpl; rewrite Hloop; unfold set_initialized; simpl;
    by rewrite ?Ht.
Qed.

Lemma stopIPv6Pool_idle st :
  initialized (vars st) = false -> stopIPv6Pool st = (Returned tt, st).
Proof. intros Hi. unfold stopIPv6Pool. munfold. by rewrite Hi. Qed.

Lemma slice_length_le {A} start stop (l : list A) :
  (length (slice start stop l) <= length l)%nat.
Proof. unfold slice. rewrite length_take, length_drop. lia. Qed.

(** ** Invariants of the reachable states *)

Lemma poolInv_cursor i st : poolInv (vars st) -> poolInv (vars (set_currentIPIndex i st)).
Proof. done. Qed.

Lemma manageIPPool_inv st :
  poolInv (vars st) ->
  fst (manageIPPool st) = Returned tt /\ poolInv (vars (snd (manageIPPool st))).
Proof.
  intros [Hm Hsz].
  destruct (manageIPPool_run st Hm)
    as (new & later & st' & -> & Hpool & Hlen & _ & _ & Hm' & _).
  simpl. split; [done|]. split; [done|].
  rewrite Hpool, length_app.
  destruct (Z.of_nat (length (ipPool (vars st))) >=? desiredPoolSize config) eqn:Hrep.
  - replace (Z.of_nat (length (ipPool (vars st))) <? desiredPoolSize config)
      with false in Hlen by lia.
    simpl in Hlen.
    pose proof (slice_length_le
      (poolAddBatchSize config `min` Z.of_nat (length (ipPool (vars st)))) None
      (ipPool (vars st))). lia.
  - replace (Z.of_nat (length (ipPool (vars st))) <? desiredPoolSize config)
      with true in Hlen by lia.
    simpl in Hlen.
    destruct (0 <? poolAddBatchSize config
               `min` (desiredPoolSize config - Z.of_nat (length (ipPool (vars st))))) eqn:Hbt;
      lia.
Qed.

Lemma initIPv6Pool_inv st :
  poolInv (vars st) -> poolInv (vars (snd (initIPv6Pool st))).
Proof.
  intros Hinv. unfold initIPv6Pool. munfold.
  destruct (initialized (vars st)); [done|].
  destruct (negb (truthy (Some (ipv6Prefix config)))
            || negb (truthy (Some (ipv6Subnet config)))); [done|].
  destruct (checkInterface_run st) as (b & st1 & -> & Hv).
  destruct b; simpl; [|by rewrite Hv].
  rewrite <- Hv in Hinv.
  destruct (manageIPPool_inv st1 Hinv) as [Hr Hinv'].
  destruct (manageIPPool st1) as [r st2]. simpl in *. by subst r.
Qed.

Lemma stopIPv6Pool_inv st :
  poolInv (vars st) -> poolInv (vars (snd (stopIPv6Pool st))).
Proof.
  intros Hinv. destruct (initialized (vars st)) eqn:Hi.
  - rewrite stopIPv6Pool_run by done. destruct Hinv as [Hm _].
    split; simpl; [done | lia].
  - by rewrite stopIPv6Pool_idle.
Qed.

Lemma runOp_inv op st : poolInv (vars st) -> poolInv (vars (runOp op st)).
Proof.
  intros Hinv. destruct op; simpl.
  - by apply initIPv6Pool_inv.
  - by apply manageIPPool_inv.
  - destruct (getNextIPFromPool_frame depth st) as [i ->]. by apply poolInv_cursor.
  - by apply stopIPv6Pool_inv.
  - destruct (requestWithIPv6_vars depth url options ipv6 st) as [i ->].
    by apply poolInv_cursor.
  - destruct (createIPv6StreamRequest_vars depth method url headers ipv6 st) as [i ->].
    by apply poolInv_cursor.
Qed.

Lemma reachable_inv st : reachable st -> poolInv (vars st).
Proof.
  induction 1 as [|st op _ IH].
  - split; [done|]. simpl. lia.
  - by apply runOp_inv.
Qed.

Lemma reachable_runOps ops : forall st, reachable st -> reachable (runOps ops st).
Proof.
  induction ops as [|op ops IH]; intros st Hst; [done|].
  simpl. apply IH. by constructor.
Qed.

(** * The claims *)

(** C2 (as amended): on an initialized pool of [n > 0] entries that are all
    valid IPv6 addresses, with the cursor [c] in range, [n] successive
    calls of [getNextIPFromPool] return every entry once, in pool order
    starting at the cursor and wrapping ([drop c pool ++ take c pool]);
    the state is then what it was, so every further round of [n] calls
    repeats the same cycle; with the cursor at 0 the cycle is the pool in
    insertion order, oldest first. *)
Theorem next_round_robin st depth :
  initialized (vars st) = true ->
  (currentIPIndex (vars st) < length (ipPool (vars st)))%nat ->
  Forall (fun ip => isIPv6 ip = true) (ipPool (vars st)) ->
  let pool := ipPool (vars st) in
  let cycle := map Some (drop (currentIPIndex (vars st)) pool
                         ++ take (currentIPIndex (vars st)) pool) in
  callNext (S depth) (length pool) st = (Returned cycle, st)
  /\ (forall m, callNext (S depth) (m * length pool) st
                = (Returned (concat (replicate m cycle)), st))
  /\ (currentIPIndex (vars st) = 0%nat -> cycle = map Some pool).
Proof.
  intros Hi Hc Hv pool cycle. split; [|split].
  - by apply next_one_cycle.
  - intros m. by apply next_many_cycles.
  - intros Hz. unfold cycle. rewrite Hz. simpl. by rewrite app_nil_r.
Qed.

(** C3 (as amended): the skip-invalid recursion of [getNextIPFromPool] has
    no bound of its own. On an initialized pool holding at least one valid
    entry the call comes back with a valid entry of the pool within
    [length pool + 1] activations; on an initialized, non-empty pool whose
    entries all fail the validity check the call never comes back, whatever
    the number of activations allowed. *)
Theorem next_skip_recursion st :
  initialized (vars st) = true ->
  (forall j ip depth,
      ipPool (vars st) !! j = Some ip -> isIPv6 ip = true ->
      (length (ipPool (vars st)) + 1 <= depth)%nat ->
      exists ip' st',
        getNextIPFromPool depth st = (Returned (Some ip'), st')
        /\ isIPv6 ip' = true /\ ip' ∈ ipPool (vars st))
  /\ ((0 < length (ipPool (vars st)))%nat ->
      Forall (fun ip => isIPv6 ip = false) (ipPool (vars st)) ->
      forall depth, fst (getNextIPFromPool depth st) = Exhausted).
Proof.
  intros Hi. split.
  - intros j ip depth Hj Hv Hd. by eapply next_returns_valid.
  - intros Hn Hbad depth. by apply next_all_invalid.
Qed.

(** C4 (as amended): for any batch size, any target size that is not
    negative and any pattern of command successes and failures, in every
    reachable state a reconciliation pass completes and leaves at most
    [desiredPoolSize] addresses in the pool. *)
Theorem pool_size_bounded_after_pass st :
  0 <= desiredPoolSize config ->
  reachable st ->
  fst (manageIPPool st) = Returned tt
  /\ Z.of_nat (length (ipPool (vars (snd (manageIPPool st))))) <= desiredPoolSize config.
Proof.
  intros Hd Hr. apply reachable_inv in Hr.
  destruct (manageIPPool_inv st Hr) as [Hret [_ Hsz]]. split; [done | lia].
Qed.

(** C5 (as amended): with five addresses in the pool, a target of 5, a
    batch of 2 and every command succeeding, the next pass removes the two
    oldest addresses and adds nothing, leaving three; the pass after it
    adds two new addresses at the back, which brings the pool back to
    five: the replacement takes two passes. *)
Theorem replacement_takes_two_passes st a1 a2 a3 a4 a5 :
  desiredPoolSize config = 5 ->
  poolAddBatchSize config = 2 ->
  poolMutex (vars st) = false ->
  ipPool (vars st) = [a1; a2; a3; a4; a5] ->
  (forall k cmd, exists out, execReply k cmd = ExecOk out) ->
  exists st1 st2 n1 n2,
    manageIPPool st = (Returned tt, st1)
    /\ ipPool (vars st1) = [a3; a4; a5]
    /\ execLog (world st1) = execLog (world st) ++ [removeCommand a1; removeCommand a2]
    /\ manageIPPool st1 = (Returned tt, st2)
    /\ ipPool (vars st2) = [a3; a4; a5; n1; n2].
Proof.
  intros Hd Hb Hm Hpool Hok.
  assert (Hadd : forall k cmd, addAnswer (execReply k cmd) = true).
  { intros k cmd. by destruct (Hok k cmd) as [out ->]. }
  destruct (manageIPPool_run st Hm)
    as (new & later & st1 & Hrun & Hp1 & Hlen & _ & _ & Hm1 & _ & _ & Hlog & Hlater).
  rewrite Hpool, Hd, Hb in Hp1, Hlen, Hlog, Hlater. simpl in Hp1, Hlen, Hlog, Hlater.
  destruct new; [|simpl in Hlen; lia]. rewrite (Hlater eq_refl) in Hlog.
  destruct (manageIPPool_run st1 Hm1)
    as (new & later2 & st2 & Hrun2 & Hp2 & _ & Hlen2 & _).
  rewrite Hp1, Hd, Hb in Hp2, Hlen2. simpl in Hp2, Hlen2.
  specialize (Hlen2 Hadd).
  destruct new as [|n1 [|n2 [|]]]; try discriminate.
  exists st1, st2, n1, n2. by rewrite Hlog.
Qed.

(** C6: when [requestWithIPv6] has chosen a source address and the request
    bound to it fails, an error whose code is [EADDRNOTAVAIL] or
    [ENETUNREACH] is followed by exactly one further call, the unbound
    [axios(url, options)], whose result (response or error) is what the
    caller gets; an error with any other code, or with none, is thrown to
    the caller as it is, and no further call is made. *)
Theorem dispatch_fallback depth url options ipv6 st st1 sourceIp parsedUrl error :
  (isIPv6RotationEnabled (vars st) || truthy ipv6) = true ->
  selectSource depth ipv6 st = (Returned (Some sourceIp), st1) ->
  truthy (Some sourceIp) = true ->
  parseURL url = Some parsedUrl ->
  let isHttps := String.eqb (protocol parsedUrl) "https:" in
  let bound := AxiosCfg (boundConfig url options isHttps (createIPv6Agent sourceIp isHttps)) in
  let k := length (axiosLog (world st1)) in
  axiosReply k bound = inr error ->
  (code error = Some "EADDRNOTAVAIL" \/ code error = Some "ENETUNREACH" ->
     requestWithIPv6 depth url options ipv6 st
     = (axiosOutcome (axiosReply (S k) (AxiosUrl url options)),
        log_axios (AxiosUrl url options) (log_axios bound st1)))
  /\ (code error <> Some "EADDRNOTAVAIL" -> code error <> Some "ENETUNREACH" ->
     requestWithIPv6 depth url options ipv6 st = (Thrown error, log_axios bound st1)).
Proof.
  intros Hsel Hsrc Htr Hurl isHttps bound k Herr.
  pose proof (requestWithIPv6_bound depth url options ipv6 st st1 sourceIp parsedUrl
                Hsel Hsrc Htr Hurl) as Hrun.
  cbv zeta in Hrun. fold isHttps bound k in Hrun. rewrite Herr in Hrun.
  split.
  - intros Hcode.
    assert (Hf : isAddressFailure error = true)
      by (unfold isAddressFailure; by destruct Hcode as [-> | ->]).
    by rewrite Hf in Hrun.
  - intros Hna Hnu.
    assert (Hf : isAddressFailure error = false).
    { unfold isAddressFailure. destruct (code error) as [c|]; [|done].
      apply orb_false_iff. split; apply String.eqb_neq; congruence. }
    by rewrite Hf in Hrun.
Qed.

(** C7: on a started pool [stopIPv6Pool] hands one removal command per
    pool entry to the shell, in pool order and whatever the individual
    removals answer, and leaves the pool empty, the cursor at 0 and the
    pool not initialized; a second call changes nothing, and neither does
    a call made while the pool is not initialized; no call throws. *)
Theorem stop_drains_pool st :
  (initialized (vars st) = true ->
     exists st',
       stopIPv6Pool st = (Returned tt, st')
       /\ execLog (world st') = execLog (world st) ++ map removeCommand (ipPool (vars st))
       /\ ipPool (vars st') = []
       /\ currentIPIndex (vars st') = 0%nat
       /\ initialized (vars st') = false
       /\ stopIPv6Pool st' = (Returned tt, st'))
  /\ (initialized (vars st) = false -> stopIPv6Pool st = (Returned tt, st)).
Proof.
  split; intros Hi.
  - eexists. split; [by apply stopIPv6Pool_run|]. simpl.
    repeat split; done.
  - by apply stopIPv6Pool_idle.
Qed.

(** C8 (as amended): the agent of an address-bound request of
    [requestWithIPv6] reuses connections and carries the fixed timeout of
    30000 ms. Every call [requestWithIPv6] makes is either the caller's
    own [axios(url, options)], to which the dispatcher adds no timeout, or
    the bound request: the caller's options and the URL, with one agent
    (keep-alive, timeout 30000, local address the chosen source: the
    address handed in, else the next one of the pool), placed in
    [httpsAgent] for an [https:] URL and in [httpAgent] otherwise, the
    other field left undefined. The request of the streaming variant gets
    no agent and no timeout; its local address is the address handed in,
    else the next one of a pool in rotation, else it has none, and a
    local address it is opened with is an IP address. *)
Theorem transport_parameters :
  (forall ip isHttps,
      keepAlive (createIPv6Agent ip isHttps) = true
      /\ timeout (createIPv6Agent ip isHttps) = 30000
      /\ localAddress (createIPv6Agent ip isHttps) = ip)
  /\ (forall depth url options ipv6 st,
        exists calls,
          axiosLog (world (snd (requestWithIPv6 depth url options ipv6 st)))
          = axiosLog (world st) ++ calls
          /\ Forall (fun call =>
                       call = AxiosUrl url options
                       \/ exists sourceIp parsedUrl,
                            parseURL url = Some parsedUrl
                            /\ (ipv6 = Some sourceIp
                                \/ truthy ipv6 = false
                                   /\ fst (getNextIPFromPool depth st)
                                      = Returned (Some sourceIp))
                            /\ let isHttps := String.eqb (protocol parsedUrl) "https:" in
                               let agent := mkAgent isHttps true 30000 sourceIp in
                               call = AxiosCfg
                                        (mkAxiosConfig (Some url)
                                           (if isHttps then None else Some agent)
                                           (if isHttps then Some agent else None)
                                           (cfgTimeout options) (cfgOther options)))
                    calls)
  /\ (forall depth method url headers ipv6 st req st',
        createIPv6StreamRequest depth method url headers ipv6 st = (Returned req, st') ->
        roAgent (reqOptions req) = None
        /\ roTimeout (reqOptions req) = None
        /\ roLocalAddress (reqOptions req)
           = (if truthy ipv6 then ipv6
              else if isIPv6RotationEnabled (vars st)
                   then match fst (getNextIPFromPool depth st) with
                        | Returned next => if truthy next then next else None
                        | _ => None
                        end
                   else None)
        /\ (forall address,
              roLocalAddress (reqOptions req) = Some address ->
              isIPv4 address = true \/ isIPv6 address = true)
        /\ streamLog (world st') = streamLog (world st) ++ [req]).
Proof.
  split; [done|]. split.
  - intros depth url options ipv6 st.
    match goal with |- exists calls, _ /\ Forall ?P calls => remember P as shape eqn:Hshape end.
    assert (Hown : shape (AxiosUrl url options)) by (subst shape; by left).
    unfold requestWithIPv6. munfold.
    destruct (negb (isIPv6RotationEnabled (id (vars st))) && negb (truthy ipv6)).
    { rewrite axios_run. exists [AxiosUrl url options]. split; [done|].
      by apply Forall_singleton. }
    destruct (selectSource_frame depth ipv6 st) as [i Hi].
    destruct (selectSource depth ipv6 st) as [[sourceIp| |] st1] eqn:Hsel;
      simpl in Hi; subst st1; [|exists []; by rewrite app_nil_r..].
    destruct (truthy sourceIp) eqn:Htr; simpl.
    2:{ rewrite axios_run. exists [AxiosUrl url options]. split; [done|].
        by apply Forall_singleton. }
    destruct sourceIp as [sourceIp|]; [|done].
    unfold newURL. destruct (parseURL url) as [parsedUrl|] eqn:Hurl;
      [|exists []; by rewrite app_nil_r].
    rewrite axios_run.
    set (bound := AxiosCfg _).
    assert (Hb : shape bound).
    { subst shape. right. exists sourceIp, parsedUrl. split; [done|]. split.
      - unfold selectSource in Hsel. munfold.
        destruct (truthy ipv6) eqn:Hgiven.
        + left. by injection Hsel as ->.
        + right. split; [done|]. by rewrite Hsel.
      - cbv zeta. subst bound. unfold boundConfig, createIPv6Agent.
        by destruct (String.eqb (protocol parsedUrl) "https:"). }
    clearbody bound. clear Hshape.
    destruct (axiosOutcome _) as [r|e|]; simpl;
      [exists [bound]; split; [done | by apply Forall_singleton] |
      | exists [bound]; split; [done | by apply Forall_singleton]].
    destruct (isAddressFailure e).
    + rewrite axios_run. exists [bound; AxiosUrl url options]. simpl.
      split; [by rewrite <- app_assoc|].
      constructor; [done|]. constructor; [done | constructor].
    + exists [bound]. split; [done | by apply Forall_singleton].
  - intros depth method url headers ipv6 st req st'.
    unfold createIPv6StreamRequest, newURL. munfold.
    destruct (parseURL url) as [uri|]; [|done].
    unfold id.
    set (isHttps := String.eqb (protocol uri) "https:").
    assert (Hopen : forall options s1,
               streamLog (world s1) = streamLog (world st) ->
               openRequest isHttps options s1 = (Returned req, st') ->
               roAgent options = None -> roTimeout options = None ->
               roAgent (reqOptions req) = None
               /\ roTimeout (reqOptions req) = None
               /\ roLocalAddress (reqOptions req) = roLocalAddress options
               /\ (forall address,
                     roLocalAddress (reqOptions req) = Some address ->
                     isIPv4 address = true \/ isIPv6 address = true)
               /\ streamLog (world st') = streamLog (world st) ++ [req]).
    { intros options s1 Hlog Hrun Hagent Htime.
      destruct (openRequest_cases isHttps options s1) as [[Hok Hip]|(a & _ & _ & Hthrow)];
        [|by rewrite Hthrow in Hrun].
      rewrite Hok in Hrun. injection Hrun as <- <-. simpl.
      split; [done|]. split; [done|]. split; [done|]. split; [|by rewrite Hlog].
      intros address Ha. rewrite Ha in Hip. unfold isIP in Hip.
      by apply orb_true_iff in Hip. }
    destruct (truthy ipv6) eqn:Hgiven.
    { intros Hrun. apply Hopen in Hrun; [|done..].
      cbn [roLocalAddress] in Hrun. by rewrite Hgiven in Hrun. }
    destruct (isIPv6RotationEnabled (vars st)).
    2:{ intros Hrun. by apply Hopen in Hrun. }
    pose proof (getNextIPFromPool_frame depth st) as [i Hi].
    destruct (getNextIPFromPool depth st) as [[next| |] s1]; simpl in Hi; subst s1;
      [|done..].
    intros Hrun. by apply Hopen in Hrun.
Qed.


(** C10: while the pool is initialized and empty, the status snapshot says
    [enabled = true] with [poolSize = 0], [isIPv6RotationEnabled] is
    false, and [requestWithIPv6] without an explicit address is exactly
    the unbound [axios(url, options)]. *)
Theorem empty_pool_status_and_dispatch st :
  initialized (vars st) = true ->
  ipPool (vars st) = [] ->
  enabled (getIPv6PoolInfo (vars st)) = true
  /\ poolSize (getIPv6PoolInfo (vars st)) = 0%nat
  /\ isIPv6RotationEnabled (vars st) = false
  /\ forall depth url options,
       requestWithIPv6 depth url options None st = axios (AxiosUrl url options) st.
Proof.
  intros Hi Hp. unfold getIPv6PoolInfo, isIPv6RotationEnabled. simpl.
  rewrite Hi, Hp. repeat split.
  intros depth url options. unfold requestWithIPv6, isIPv6RotationEnabled. munfold.
  unfold id. by rewrite Hi, Hp.
Qed.

(** * Further properties of the two modules *)

(** ** Generated addresses *)

Lemma hexDigit_lower d : 0 <= d < 16 -> isLowerHex (hexDigit d) = true.
Proof.
  intros H.
  assert (d = 0 \/ d = 1 \/ d = 2 \/ d = 3 \/ d = 4 \/ d = 5 \/ d = 6 \/ d = 7 \/
          d = 8 \/ d = 9 \/ d = 10 \/ d = 11 \/ d = 12 \/ d = 13 \/ d = 14 \/ d = 15)
    as Hd by lia.
  repeat (destruct Hd as [->|Hd]; [reflexivity|]). by subst.
Qed.

(** The four digits of a 16-bit value, most significant first. *)
Lemma hextet_digits v :
  0 <= v < 65536 ->
  hextet v
  = String (hexDigit (v / 4096))
      (String (hexDigit (v / 256 mod 16))
         (String (hexDigit (v / 16 mod 16))
            (String (hexDigit (v mod 16)) EmptyString))).
Proof.
  intros Hv. unfold hextet, toString16.
  change 64%nat with (S (S (S (S 60)))). cbn [toString16_aux].
  assert (v / 16 / 16 = v / 256) as E2 by (rewrite Z.div_div by lia; reflexivity).
  assert (v / 16 / 16 / 16 = v / 4096) as E3
    by (rewrite !Z.div_div by lia; reflexivity).
  assert (v / 16 / 16 / 16 / 16 = 0) as E4
    by (rewrite !Z.div_div by lia; apply Z.div_small; lia).
  rewrite E4, E3, E2.
  assert (v / 4096 mod 16 = v / 4096) as E5.
  { apply Z.mod_small. split; [apply Z.div_pos; lia | apply Z.div_lt_upper_bound; lia]. }
  rewrite E5.
  destruct (v / 16 =? 0) eqn:H1.
  { apply Z.eqb_eq in H1.
    assert (v / 256 = 0) as -> by (rewrite <- E2, H1; reflexivity).
    assert (v / 4096 = 0) as -> by (rewrite <- E3, H1; reflexivity).
    rewrite H1. reflexivity. }
  destruct (v / 256 =? 0) eqn:H2.
  { apply Z.eqb_eq in H2.
    assert (v / 4096 = 0) as -> by (rewrite <- E3, E2, H2; reflexivity).
    rewrite H2. reflexivity. }
  destruct (v / 4096 =? 0) eqn:H3.
  { apply Z.eqb_eq in H3. rewrite H3. reflexivity. }
  reflexivity.
Qed.

Lemma hextet_wellformed v :
  0 <= v < 65536 ->
  String.length (hextet v) = 4%nat
  /\ forallb isLowerHex (String.list_ascii_of_string (hextet v)) = true.
Proof.
  intros Hv. rewrite hextet_digits by done. split; [reflexivity|].
  assert (0 <= v / 4096 < 16)
    by (split; [apply Z.div_pos; lia | apply Z.div_lt_upper_bound; lia]).
  cbn [String.list_ascii_of_string forallb].
  rewrite !hexDigit_lower; [reflexivity | | | |]; try done;
    apply Z.mod_pos_bound; lia.
Qed.

Lemma land_16_bits x : 0 <= Z.land x 0xFFFF < 65536.
Proof.
  change 0xFFFF with (Z.ones 16). rewrite Z.land_ones by lia.
  apply Z.mod_pos_bound. lia.
Qed.

(** X1: whatever the random draws are, [randomIPv6] returns the configured
    prefix and subnet followed by four groups, all six parts separated by
    colons, each group being exactly four lowercase hexadecimal digits;
    it takes two draws and touches nothing else. *)
Theorem randomIPv6_shape st :
  exists h1 h2 h3 h4,
    randomIPv6 st
    = (Returned (ipv6Prefix config +:+ ":" +:+ ipv6Subnet config +:+ ":" +:+
                 h1 +:+ ":" +:+ h2 +:+ ":" +:+ h3 +:+ ":" +:+ h4),
       log_random (log_random st))
    /\ Forall (fun h => String.length h = 4%nat
                        /\ forallb isLowerHex (String.list_ascii_of_string h) = true)
              [h1; h2; h3; h4].
Proof.
  eexists _, _, _, _. split; [reflexivity|].
  repeat (apply Forall_cons; split; [apply hextet_wellformed, land_16_bits|]).
  apply Forall_nil_2.
Qed.

(** ** Interface detection *)

Lemma find_existsb {A} (f : A -> bool) l :
  (exists x, List.find f l = Some x) <-> existsb f l = true.
Proof.
  induction l as [|a l IH]; simpl.
  - split; [by intros [x ?] | done].
  - destruct (f a); simpl; [split; eauto | done].
Qed.

(** X2: [detectInterface] returns the name of the first entry, in
    enumeration order, that owns a non-internal IPv4 address, and [eth0]
    when no entry does. *)
Theorem detectInterface_first interfaces :
  (exists pre name infos post,
      interfaces = pre ++ (name, Some infos) :: post
      /\ Forall (fun e => hasExternalIPv4 e = false) pre
      /\ existsb isExternalIPv4 infos = true
      /\ detectInterface interfaces = name)
  \/ (Forall (fun e => hasExternalIPv4 e = false) interfaces
      /\ detectInterface interfaces = "eth0").
Proof.
  induction interfaces as [|[name [infos|]] rest IH]; simpl.
  - right. split; [constructor | done].
  - destruct (List.find isExternalIPv4 infos) as [x|] eqn:Hf.
    + left. exists [], name, infos, rest. repeat split; [constructor|].
      apply find_existsb. eauto.
    + assert (existsb isExternalIPv4 infos = false) as Hno.
      { destruct (existsb isExternalIPv4 infos) eqn:E; [|done].
        apply find_existsb in E as [x Hx]. congruence. }
      destruct IH as [(pre & n & i & post & -> & Hpre & Hi & Hr)|[Hall Hr]].
      * left. exists ((name, Some infos) :: pre), n, i, post.
        repeat split; [by constructor | done | done].
      * right. split; [by constructor | done].
  - destruct IH as [(pre & n & i & post & -> & Hpre & Hi & Hr)|[Hall Hr]].
    + left. exists ((name, None) :: pre), n, i, post.
      repeat split; [by constructor | done | done].
    + right. split; [by constructor | done].
Qed.

(** ** The interface controller *)

Lemma checkInterface_answer st :
  checkInterface st
  = match platform with
    | linux =>
        (Returned
           match execReply (length (execLog (world st)))
                           ("ip link show " +:+ interface config) with
           | ExecOk stdout => includes "state UP" stdout || includes "LOWER_UP" stdout
           | ExecFail _ => false
           end,
         log_exec ("ip link show " +:+ interface config) st)
    | _ => (Returned (networkInterfaces (interface config)), st)
    end.
Proof.
  unfold checkInterface, execAsync. munfold.
  destruct platform; [reflexivity..|].
  by destruct (execReply _ _).
Qed.

(** X3: on Linux [checkInterface] never throws and hands [ip link show]
    to the shell once; it answers [true] exactly when the command
    succeeds and [state UP] or [LOWER_UP] is a substring of its output: a
    failing command and an output without either marker both read as an
    interface that is down. *)
Theorem checkInterface_linux st :
  platform = linux ->
  let cmd := "ip link show " +:+ interface config in
  (exists b, checkInterface st = (Returned b, log_exec cmd st))
  /\ (fst (checkInterface st) = Returned true
      <-> exists out pre post,
            execReply (length (execLog (world st))) cmd = ExecOk out
            /\ (out = pre +:+ "state UP" +:+ post \/ out = pre +:+ "LOWER_UP" +:+ post)).
Proof.
  intros Hp cmd. rewrite checkInterface_answer, Hp. fold cmd.
  split; [by eexists|]. simpl.
  destruct (execReply (length (execLog (world st))) cmd) as [out|err].
  - split.
    + intros [= H]. apply orb_true_iff in H as [H|H];
        apply includes_spec in H as (pre & post & H); exists out, pre, post; eauto.
    + intros (out' & pre & post & [= <-] & H). f_equal. apply orb_true_iff.
      destruct H as [H|H]; [left | right]; apply includes_spec; by exists pre, post.
  - split; [done | by intros (? & ? & ? & ? & _)].
Qed.

(** [removeIPv6FromInterface] never throws and hands its command to the
    shell once; it answers [true] exactly when the command succeeds:
    unlike the add, no failure message is taken for a success. *)
Lemma removeIPv6FromInterface_answer ipv6 st :
  removeIPv6FromInterface ipv6 st
  = (Returned match execReply (length (execLog (world st))) (removeCommand ipv6) with
              | ExecOk _ => true
              | ExecFail _ => false
              end,
     log_exec (removeCommand ipv6) st).
Proof.
  unfold removeIPv6FromInterface, execAsync. munfold.
  by destruct (execReply _ _).
Qed.

(** X4: when its command fails, [addIPv6ToInterface] answers [true]
    exactly when the error carries a message of which [File exists] is a
    substring; an error without a message counts as a failure. *)
Theorem add_failure_tolerated ipv6 st err :
  execReply (length (execLog (world st))) (addCommand ipv6) = ExecFail err ->
  fst (addIPv6ToInterface ipv6 st) = Returned true
  <-> exists pre post, message err = Some (pre +:+ "File exists" +:+ post).
Proof.
  intros Hr. rewrite addIPv6ToInterface_run, Hr. simpl. unfold fileExists.
  destruct (message err) as [m|].
  - split.
    + intros [= H]. apply andb_true_iff in H as [_ H].
      apply includes_spec in H as (pre & post & ->). by exists pre, post.
    + intros (pre & post & [= ->]). f_equal. apply andb_true_iff. split.
      * by destruct pre.
      * apply includes_spec. by exists pre, post.
  - split; [done | by intros (? & ? & ?)].
Qed.

(** ** What [getNextIPFromPool] hands out *)

(** X5: what [getNextIPFromPool] gives back. An address it returns is an
    entry of the pool that passes [net.isIPv6], and the pool is then
    initialized; it returns [null] only when the pool is not initialized
    or empty, and then it leaves the state as it was. It raises no
    exception of its own: the only outcome other than a returned value is
    the skip recursion running out of stack ([Exhausted]; Node reports it
    as a [RangeError]). *)
Theorem next_result_sound depth : forall st r st',
  getNextIPFromPool depth st = (r, st') ->
  match r with
  | Returned (Some ip) =>
      initialized (vars st) = true /\ ip ∈ ipPool (vars st) /\ isIPv6 ip = true
  | Returned None =>
      st' = st /\ (initialized (vars st) = false \/ ipPool (vars st) = [])
  | Thrown _ => False
  | Exhausted => True
  end.
Proof.
  induction depth as [|depth IH]; intros st r st' H; simpl in H.
  - by injection H as <- <-.
  - destruct (initialized (vars st)) eqn:Hi; simpl in H.
    2:{ injection H as <- <-. split; [done | by left]. }
    destruct (ipPool (vars st)) as [|a pool] eqn:Hp; simpl in H.
    { injection H as <- <-. split; [done | by right]. }
    set (st1 := set_currentIPIndex _ st) in H.
    assert (Hrec : getNextIPFromPool depth st1 = (r, st') ->
                   match r with
                   | Returned (Some ip) => true = true /\ ip ∈ a :: pool /\ isIPv6 ip = true
                   | Returned None =>
                       st' = st /\ (true = false \/ a :: pool = [])
                   | Thrown _ => False
                   | Exhausted => True
                   end).
    { intros Hr. apply IH in Hr. subst st1. simpl in Hr. rewrite Hi, Hp in Hr.
      destruct r as [[ip|]| |]; try done.
      destruct Hr as [_ [?|?]]; done. }
    destruct ((a :: pool) !! currentIPIndex (vars st)) as [ip|] eqn:Hl; [|by apply Hrec].
    destruct (isIPv6 ip) eqn:Hv; [|by apply Hrec].
    injection H as <- <-. split; [done|]. split; [|done].
    by apply list_elem_of_lookup_2 in Hl.
Qed.

Lemma next_keeps_cursor_in_range depth : forall st,
  (currentIPIndex (vars st) < length (ipPool (vars st)))%nat ->
  (currentIPIndex (vars (snd (getNextIPFromPool depth st)))
   < length (ipPool (vars st)))%nat.
Proof.
  induction depth as [|depth IH]; intros st Hc; simpl; [done|].
  destruct (negb (initialized (vars st)) || (length (ipPool (vars st)) =? 0)%nat);
    [done|].
  set (st1 := set_currentIPIndex _ st).
  assert (currentIPIndex (vars st1) < length (ipPool (vars st1)))%nat as Hc1
    by (simpl; apply Nat.mod_upper_bound; lia).
  destruct (ipPool (vars st) !! currentIPIndex (vars st)) as [ip|].
  - destruct (isIPv6 ip); [done|]. by apply (IH st1).
  - by apply (IH st1).
Qed.

(** X6: on an initialized, non-empty pool one call of
    [getNextIPFromPool] leaves the cursor in range, wherever it was
    before and whether or not the call comes back: a cursor left out of
    range by a reconciliation pass is repaired by the first call. *)
Theorem next_repairs_cursor depth st :
  initialized (vars st) = true ->
  (0 < length (ipPool (vars st)))%nat ->
  (0 < depth)%nat ->
  (currentIPIndex (vars (snd (getNextIPFromPool depth st)))
   < length (ipPool (vars (snd (getNextIPFromPool depth st)))))%nat.
Proof.
  intros Hi Hn Hd. destruct depth as [|depth]; [lia|].
  assert (ipPool (vars (snd (getNextIPFromPool (S depth) st))) = ipPool (vars st)) as ->
    by (by destruct (getNextIPFromPool_frame (S depth) st) as [i ->]).
  simpl. rewrite Hi. simpl.
  destruct (length (ipPool (vars st)) =? 0)%nat eqn:E; [apply Nat.eqb_eq in E; lia|].
  set (st1 := set_currentIPIndex _ st).
  assert (currentIPIndex (vars st1) < length (ipPool (vars st1)))%nat as Hc1
    by (simpl; apply Nat.mod_upper_bound; lia).
  destruct (ipPool (vars st) !! currentIPIndex (vars st)) as [ip|].
  - destruct (isIPv6 ip); [done|]. by apply (next_keeps_cursor_in_range depth st1).
  - by apply (next_keeps_cursor_in_range depth st1).
Qed.

(** ** What a reconciliation pass does to the pool *)

(** The two slices of the replacement branch cut the pool in two. *)
Lemma slice_split {A} (k : Z) (l : list A) :
  slice 0 (Some k) l ++ slice k None l = l.
Proof.
  unfold slice.
  assert (relIndex (length l) 0 = 0%nat) as -> by (unfold relIndex; simpl; lia).
  rewrite drop_0, Nat.sub_0_r.
  rewrite (take_ge (drop _ l)) by (rewrite length_drop; lia).
  apply take_drop.
Qed.

Lemma relIndex_le len k : (relIndex len k <= len)%nat.
Proof. unfold relIndex. destruct (k <? 0) eqn:E; lia. Qed.

Lemma slice_from_length {A} (k : Z) (l : list A) :
  length (slice k None l) = (length l - relIndex (length l) k)%nat.
Proof. unfold slice. rewrite length_take, length_drop. lia. Qed.

Lemma tried_S r n : tried r (S n) = generated r :: tried (S (S r)) n.
Proof.
  unfold tried. cbn [seq map]. rewrite Nat.mul_0_r, Nat.add_0_r.
  apply (f_equal (cons (generated r))).
  rewrite <- seq_shift, map_map. apply map_ext. intros i.
  by replace (r + 2 * S i)%nat with (S (S r) + 2 * i)%nat by lia.
Qed.

Lemma growth_loop_exact n : forall acc st,
  forCount n addOne acc st
  = (Returned (acc ++ accepted (length (execLog (world st))) (randomDraws (world st)) n),
     mkState (vars st)
       (mkWorld (execLog (world st) ++ map addCommand (tried (randomDraws (world st)) n))
                (randomDraws (world st) + 2 * n)
                (axiosLog (world st)) (streamLog (world st)))).
Proof.
  induction n as [|n IH]; intros acc [v [e r a s]].
  - cbn [forCount]. munfold. unfold tried. cbn.
    by rewrite !app_nil_r, Nat.add_0_r.
  - cbn [forCount]. munfold. unfold addOne at 1. munfold.
    rewrite randomIPv6_run, addIPv6ToInterface_run.
    unfold log_exec, log_random.
    cbn [world vars execLog randomDraws axiosLog streamLog].
    rewrite IH.
    cbn [world vars execLog randomDraws axiosLog streamLog].
    rewrite tried_S. cbn [accepted map].
    rewrite length_app. cbn [length]. rewrite Nat.add_1_r.
    replace (S (S r) + 2 * n)%nat with (r + 2 * S n)%nat by lia.
    rewrite <- (app_assoc e). cbn [app].
    destruct (addAnswer (execReply (length e) (addCommand (generated r)))).
    + by rewrite <- (app_assoc acc).
    + reflexivity.
Qed.

Lemma accepted_spec n : forall e r ip,
  ip ∈ accepted e r n ->
  exists i, (i < n)%nat
            /\ ip = generated (r + 2 * i)
            /\ addAnswer (execReply (e + i) (addCommand ip)) = true.
Proof.
  induction n as [|n IH]; intros e r ip Hin; simpl in Hin; [by apply elem_of_nil in Hin|].
  apply elem_of_app in Hin as [Hin|Hin].
  - destruct (addAnswer _) eqn:Hok; [|by apply elem_of_nil in Hin].
    apply list_elem_of_singleton in Hin as ->.
    exists 0%nat. rewrite !Nat.add_0_r. split; [lia | done].
  - destruct (IH _ _ _ Hin) as (i & Hi & -> & Hok).
    exists (S i). split; [lia|].
    replace (r + 2 * S i)%nat with (S (S r) + 2 * i)%nat by lia.
    replace (e + S i)%nat with (S e + i)%nat by lia. done.
Qed.

Lemma accepted_length e r n : (length (accepted e r n) <= n)%nat.
Proof.
  revert e r. induction n as [|n IH]; intros e r; simpl; [lia|].
  rewrite length_app. specialize (IH (S e) (S (S r))).
  destruct (addAnswer _); simpl; lia.
Qed.

(** A pass on a pool below the target, with a positive batch: the growth
    loop, and the pool extended by what it accepted. *)
Lemma manageIPPool_growth st :
  poolMutex (vars st) = false ->
  let size := Z.of_nat (length (ipPool (vars st))) in
  let n := Z.to_nat (Z.min (poolAddBatchSize config) (desiredPoolSize config - size)) in
  size < desiredPoolSize config ->
  0 < poolAddBatchSize config ->
  manageIPPool st
  = (Returned tt,
     mkState
       (mkPoolVars
          (ipPool (vars st)
           ++ accepted (length (execLog (world st))) (randomDraws (world st)) n)
          false (currentIPIndex (vars st)) (initialized (vars st)) (poolTimer (vars st)))
       (mkWorld (execLog (world st) ++ map addCommand (tried (randomDraws (world st)) n))
                (randomDraws (world st) + 2 * n)
                (axiosLog (world st)) (streamLog (world st)))).
Proof.
  intros Hm size n Hlt Hb.
  destruct st as [[pool mutex idx init timer] [e r a s]]. simpl in *. subst mutex.
  pose proof (growth_loop_exact n []) as Hg.
  unfold manageIPPool. munfold. simpl.
  replace (Z.of_nat (length pool) >=? desiredPoolSize config) with false by lia.
  replace (Z.of_nat (length pool) <? desiredPoolSize config) with true by lia.
  replace (0 <? poolAddBatchSize config `min` (desiredPoolSize config - Z.of_nat (length pool)))
    with true by lia.
  simpl. fold size n. rewrite Hg. simpl.
  destruct (accepted (length e) r n) as [|x xs] eqn:Ha; simpl.
  - by rewrite app_nil_r.
  - done.
Qed.

(** When the interface accepts every add, the growth loop keeps every
    address it tries. *)
Lemma accepted_all e r n :
  (forall k ip, addAnswer (execReply k (addCommand ip)) = true) ->
  accepted e r n = tried r n.
Proof.
  intros Hok. revert e r. induction n as [|n IH]; intros e r; [done|].
  rewrite tried_S. cbn [accepted]. by rewrite Hok, IH.
Qed.

Lemma tried_length r n : length (tried r n) = n.
Proof. unfold tried. by rewrite length_map, length_seq. Qed.

(** What a pass appends when the interface accepts every add, whatever it
    answers to the removals. *)
Lemma manageIPPool_adds st new st' :
  poolMutex (vars st) = false ->
  (forall k ip, addAnswer (execReply k (addCommand ip)) = true) ->
  let pool := ipPool (vars st) in
  let currentSize := Z.of_nat (length pool) in
  let replace := currentSize >=? desiredPoolSize config in
  let numToRemove := Z.min (poolAddBatchSize config) currentSize in
  let batchTarget :=
    Z.min (poolAddBatchSize config) (desiredPoolSize config - currentSize) in
  let kept := if replace then slice numToRemove None pool else pool in
  let target := if (currentSize <? desiredPoolSize config) && (0 <? batchTarget)
                then Z.to_nat batchTarget else 0%nat in
  manageIPPool st = (Returned tt, st') ->
  ipPool (vars st') = kept ++ new ->
  length new = target.
Proof.
  intros Hm Hok. cbv zeta. intros Hrun Hp.
  destruct ((Z.of_nat (length (ipPool (vars st))) <? desiredPoolSize config)
            && (0 <? poolAddBatchSize config
                     `min` (desiredPoolSize config
                            - Z.of_nat (length (ipPool (vars st)))))) eqn:Hgrow.
  - apply andb_true_iff in Hgrow as [Hlt Hpos].
    apply Z.ltb_lt in Hlt. apply Z.ltb_lt in Hpos.
    assert (0 < poolAddBatchSize config) as Hb by lia.
    pose proof (manageIPPool_growth st Hm Hlt Hb) as Hg. cbv zeta in Hg.
    rewrite Hrun in Hg. injection Hg as ->. simpl in Hp.
    replace (Z.of_nat (length (ipPool (vars st))) >=? desiredPoolSize config)
      with false in Hp by lia.
    apply app_inv_head in Hp. rewrite <- Hp, accepted_all by done.
    apply tried_length.
  - destruct (manageIPPool_run st Hm)
      as (new0 & later & st0 & Hrun0 & Hp0 & Hlen & _).
    cbv zeta in Hp0, Hlen. rewrite Hgrow in Hlen.
    rewrite Hrun in Hrun0. injection Hrun0 as <-.
    rewrite Hp in Hp0. apply app_inv_head in Hp0. subst new0. lia.
Qed.

Lemma tried_lookup r n i :
  (i < n)%nat -> tried r n !! i = Some (generated (r + 2 * i)).
Proof.
  intros Hi. unfold tried. rewrite list_lookup_fmap, lookup_seq_lt by done. done.
Qed.

(** One pass, summed up: what left the pool, what stayed, what was tried
    and what came in. *)
Lemma manageIPPool_summary st :
  poolMutex (vars st) = false ->
  exists removed kept triedNow new st',
    manageIPPool st = (Returned tt, st')
    /\ ipPool (vars st) = removed ++ kept
    /\ ipPool (vars st') = kept ++ new
    /\ execLog (world st')
       = execLog (world st) ++ map removeCommand removed ++ map addCommand triedNow
    /\ (removed = [] \/ (triedNow = [] /\ new = []))
    /\ (forall ip, ip ∈ new ->
          exists i, triedNow !! i = Some ip
                    /\ addAnswer (execReply (length (execLog (world st)) + i)
                                            (addCommand ip)) = true).
Proof.
  intros Hm.
  destruct (decide (Z.of_nat (length (ipPool (vars st))) < desiredPoolSize config
                    /\ 0 < poolAddBatchSize config)) as [[Hlt Hb]|Hno].
  - rewrite (manageIPPool_growth st Hm Hlt Hb).
    set (n := Z.to_nat _).
    exists [], (ipPool (vars st)), (tried (randomDraws (world st)) n),
      (accepted (length (execLog (world st))) (randomDraws (world st)) n).
    eexists. split; [reflexivity|].
    cbn [vars world ipPool execLog app map].
    split; [reflexivity|]. split; [reflexivity|]. split; [reflexivity|].
    split; [by left|].
    intros ip Hin. apply accepted_spec in Hin as (i & Hi & -> & Hok).
    exists i. split; [by apply tried_lookup | done].
  - destruct (manageIPPool_run st Hm)
      as (new & later & st' & -> & Hp & Hlen & _ & _ & _ & _ & _ & Hlog & Hlater).
    cbv zeta in *.
    set (size := Z.of_nat (length (ipPool (vars st)))) in *.
    assert ((if (size <? desiredPoolSize config)
                && (0 <? poolAddBatchSize config `min` (desiredPoolSize config - size))
             then Z.to_nat (poolAddBatchSize config `min` (desiredPoolSize config - size))
             else 0%nat) = 0%nat) as Ht.
    { destruct (size <? desiredPoolSize config) eqn:E1; [|done].
      destruct (0 <? _) eqn:E2; [|done]. simpl. lia. }
    rewrite Ht in Hlen, Hlater. destruct new; [|simpl in Hlen; lia].
    rewrite (Hlater eq_refl) in Hlog. rewrite app_nil_r in Hp, Hlog.
    destruct (size >=? desiredPoolSize config).
    + exists (slice 0 (Some (poolAddBatchSize config `min` size)) (ipPool (vars st))),
             (slice (poolAddBatchSize config `min` size) None (ipPool (vars st))),
             [], [], st'.
      split; [done|]. split; [symmetry; apply slice_split|].
      cbn [map]. rewrite !app_nil_r. split; [done|]. split; [done|]. split; [by right|].
      intros ip Hin. by apply elem_of_nil in Hin.
    + exists [], (ipPool (vars st)), [], [], st'. split; [done|].
      cbn [map app] in *. rewrite !app_nil_r in *.
      split; [done|]. split; [done|]. split; [done|]. split; [by left|].
      intros ip Hin. by apply elem_of_nil in Hin.
Qed.

(** X7: a pass takes entries away only from the front of the pool and
    adds only at the back, and for every entry it takes away it hands
    the removal command to the shell: no address leaves the pool without
    a removal attempt, whatever the removals answer. *)
Theorem pass_evicts_front_appends_back st :
  poolMutex (vars st) = false ->
  exists removed kept new later st',
    manageIPPool st = (Returned tt, st')
    /\ ipPool (vars st) = removed ++ kept
    /\ ipPool (vars st') = kept ++ new
    /\ execLog (world st') = execLog (world st) ++ map removeCommand removed ++ later.
Proof.
  intros Hm.
  destruct (manageIPPool_summary st Hm)
    as (removed & kept & triedNow & new & st' & Hrun & Hp & Hp' & Hlog & _).
  by exists removed, kept, new, (map addCommand triedNow), st'.
Qed.

(** X8: one pass never both removes and adds: the commands it hands to
    the shell are removal commands only, and then nothing enters the
    pool, or add commands only, and then nothing leaves it. *)
Theorem pass_removes_or_adds st :
  poolMutex (vars st) = false ->
  exists removed added,
    execLog (world (snd (manageIPPool st)))
    = execLog (world st) ++ map removeCommand removed ++ map addCommand added
    /\ ((removed = [] /\ exists new, ipPool (vars (snd (manageIPPool st)))
                                     = ipPool (vars st) ++ new)
        \/ (added = [] /\ ipPool (vars st)
                          = removed ++ ipPool (vars (snd (manageIPPool st))))).
Proof.
  intros Hm.
  destruct (manageIPPool_summary st Hm)
    as (removed & kept & triedNow & new & st' & -> & Hp & Hp' & Hlog & Hex & _).
  simpl. exists removed, triedNow. split; [done|].
  destruct Hex as [->|[-> ->]].
  - left. split; [done|]. exists new. by rewrite Hp, Hp'.
  - right. split; [done|]. by rewrite Hp, Hp', app_nil_r.
Qed.

(** X9: an address enters the pool only after its add command was
    handed to the shell in the same pass and accepted (the command
    succeeded, or failed with [File exists]). *)
Theorem pass_adds_only_accepted st :
  poolMutex (vars st) = false ->
  exists removed kept new,
    ipPool (vars st) = removed ++ kept
    /\ ipPool (vars (snd (manageIPPool st))) = kept ++ new
    /\ forall ip, ip ∈ new ->
         exists k, (length (execLog (world st)) <= k)%nat
                   /\ execLog (world (snd (manageIPPool st))) !! k = Some (addCommand ip)
                   /\ addAnswer (execReply k (addCommand ip)) = true.
Proof.
  intros Hm.
  destruct (manageIPPool_summary st Hm)
    as (removed & kept & triedNow & new & st' & -> & Hp & Hp' & Hlog & Hex & Hacc).
  simpl. exists removed, kept, new. split; [done|]. split; [done|].
  intros ip Hin. destruct Hex as [->|[_ ->]]; [|by apply elem_of_nil in Hin].
  destruct (Hacc ip Hin) as (i & Hi & Hok).
  exists (length (execLog (world st)) + i)%nat. split; [lia|]. split; [|done].
  rewrite Hlog. simpl. rewrite lookup_app_r by lia.
  replace (length (execLog (world st)) + i - length (execLog (world st)))%nat
    with i by lia.
  by rewrite list_lookup_fmap, Hi.
Qed.

(** The size a growth pass leaves when every add is accepted. *)
Lemma manageIPPool_growth_size st :
  poolMutex (vars st) = false ->
  (forall k ip, addAnswer (execReply k (addCommand ip)) = true) ->
  Z.of_nat (length (ipPool (vars st))) < desiredPoolSize config ->
  0 < poolAddBatchSize config ->
  Z.of_nat (length (ipPool (vars (snd (manageIPPool st)))))
  = Z.min (Z.of_nat (length (ipPool (vars st))) + poolAddBatchSize config)
          (desiredPoolSize config).
Proof.
  intros Hm Hok Hlt Hb.
  destruct (manageIPPool_run st Hm)
    as (new & later & st' & Hrun & Hp & _).
  pose proof (manageIPPool_adds st new st' Hm Hok Hrun Hp) as Hlen.
  rewrite Hrun. clear Hrun.
  cbv zeta in *. simpl. rewrite Hp, length_app, Hlen.
  replace (Z.of_nat (length (ipPool (vars st))) >=? desiredPoolSize config)
    with false by lia.
  replace (Z.of_nat (length (ipPool (vars st))) <? desiredPoolSize config)
    with true by lia.
  replace (0 <? poolAddBatchSize config
                `min` (desiredPoolSize config - Z.of_nat (length (ipPool (vars st)))))
    with true by lia.
  simpl. lia.
Qed.


Lemma manageIPPool_mutex st :
  poolMutex (vars st) = false -> poolMutex (vars (snd (manageIPPool st))) = false.
Proof.
  intros Hm.
  by destruct (manageIPPool_run st Hm) as (new & later & st' & -> & _ & _ & _ & _ & ? & _).
Qed.

(** X11: with every add accepted and a positive batch, [k] passes in a
    row on a pool of size [s], every one of which starts below the
    target (that is, [s + (k - 1) * batch] is below the target), leave it
    with the smaller of [s + k * batch] and the target: the pool fills up
    in steps of one batch and stops at the target. A pass that starts at
    the target is a replacement pass and is not covered. *)
Theorem passes_fill_pool k : forall st,
  poolMutex (vars st) = false ->
  (forall k ip, addAnswer (execReply k (addCommand ip)) = true) ->
  0 < poolAddBatchSize config ->
  Z.of_nat (length (ipPool (vars st))) + (Z.of_nat k - 1) * poolAddBatchSize config
    < desiredPoolSize config ->
  Z.of_nat (length (ipPool (vars st))) <= desiredPoolSize config ->
  Z.of_nat (length (ipPool (vars (runOps (replicate k CallManage) st))))
  = Z.min (Z.of_nat (length (ipPool (vars st))) + Z.of_nat k * poolAddBatchSize config)
          (desiredPoolSize config).
Proof.
  induction k as [|k IH]; intros st Hm Hok Hb Hlt Hle.
  - simpl. lia.
  - change (runOps (replicate (S k) CallManage) st)
      with (runOps (replicate k CallManage) (snd (manageIPPool st))).
    assert (Z.of_nat (length (ipPool (vars st))) < desiredPoolSize config) as Hlt0 by nia.
    pose proof (manageIPPool_growth_size st Hm Hok Hlt0 Hb) as Hs.
    destruct k as [|k].
    + simpl. rewrite Hs. lia.
    + rewrite IH; [| by apply manageIPPool_mutex | done | done | rewrite Hs; nia | rewrite Hs; lia].
      rewrite Hs. nia.
Qed.

(** X12: at the target size, with a positive batch [b] not above the
    target and every add accepted, whatever the removals answer, two
    passes in a row replace the [b] oldest addresses: the first takes
    them out of the pool, hands their removal commands to the shell and
    adds nothing, the second adds [b] new addresses at the back, and the
    pool is at the target size again. *)
Theorem two_passes_rotate_batch st :
  poolMutex (vars st) = false ->
  (forall k ip, addAnswer (execReply k (addCommand ip)) = true) ->
  Z.of_nat (length (ipPool (vars st))) = desiredPoolSize config ->
  0 < poolAddBatchSize config <= desiredPoolSize config ->
  let b := Z.to_nat (poolAddBatchSize config) in
  exists st1 st2 new,
    manageIPPool st = (Returned tt, st1)
    /\ ipPool (vars st1) = drop b (ipPool (vars st))
    /\ execLog (world st1)
       = execLog (world st) ++ map removeCommand (take b (ipPool (vars st)))
    /\ manageIPPool st1 = (Returned tt, st2)
    /\ ipPool (vars st2) = drop b (ipPool (vars st)) ++ new
    /\ length new = b
    /\ Z.of_nat (length (ipPool (vars st2))) = desiredPoolSize config.
Proof.
  intros Hm Hok Hsz Hb b.
  assert (Z.of_nat b = poolAddBatchSize config) as Hbv by (unfold b; lia).
  destruct (manageIPPool_run st Hm)
    as (new & later & st1 & Hrun & Hp1 & Hlen & _ & _ & Hm1 & _ & _ & Hlog & Hlater).
  cbv zeta in *.
  set (pool := ipPool (vars st)) in *.
  replace (Z.of_nat (length pool) >=? desiredPoolSize config) with true in * by lia.
  replace (Z.of_nat (length pool) <? desiredPoolSize config) with false in * by lia.
  simpl in Hlen, Hlater. destruct new; [|simpl in Hlen; lia].
  rewrite (Hlater eq_refl) in Hlog. rewrite app_nil_r in Hp1, Hlog.
  assert (relIndex (length pool) (poolAddBatchSize config `min` Z.of_nat (length pool)) = b)
    as Hri by (unfold relIndex, b; destruct (_ <? 0) eqn:E; lia).
  assert (slice (poolAddBatchSize config `min` Z.of_nat (length pool)) None pool
          = drop b pool) as Hkept.
  { unfold slice. rewrite Hri. apply take_ge. rewrite length_drop. lia. }
  assert (slice 0 (Some (poolAddBatchSize config `min` Z.of_nat (length pool))) pool
          = take b pool) as Hrem.
  { unfold slice. rewrite Hri.
    assert (relIndex (length pool) 0 = 0%nat) as -> by (unfold relIndex; simpl; lia).
    by rewrite drop_0, Nat.sub_0_r. }
  rewrite Hkept in Hp1. rewrite Hrem in Hlog.
  destruct (manageIPPool_run st1 Hm1)
    as (new & later2 & st2 & Hrun2 & Hp2 & _).
  pose proof (manageIPPool_adds st1 new st2 Hm1 Hok Hrun2 Hp2) as Hlen2.
  cbv zeta in *.
  rewrite Hp1, length_drop in Hp2, Hlen2.
  assert (Z.of_nat (length pool - b) < desiredPoolSize config) as Hbelow by lia.
  assert ((Z.of_nat (length pool - b) >=? desiredPoolSize config) = false) as E1
    by (rewrite Z.geb_leb; apply Z.leb_gt; exact Hbelow).
  assert ((Z.of_nat (length pool - b) <? desiredPoolSize config) = true) as E2
    by (apply Z.ltb_lt; exact Hbelow).
  assert ((0 <? poolAddBatchSize config
                `min` (desiredPoolSize config - Z.of_nat (length pool - b))) = true) as E3
    by (apply Z.ltb_lt; lia).
  rewrite E1 in Hp2. rewrite E2, E3 in Hlen2.
  simpl in Hlen2.
  exists st1, st2, new. repeat split; try done.
  - lia.
  - rewrite Hp2, length_app, length_drop. lia.
Qed.

(** ** Life cycle *)

Lemma manageIPPool_returns st :
  exists st',
    manageIPPool st = (Returned tt, st')
    /\ poolMutex (vars st') = poolMutex (vars st)
    /\ initialized (vars st') = initialized (vars st)
    /\ poolTimer (vars st') = poolTimer (vars st).
Proof.
  destruct (poolMutex (vars st)) eqn:Hm.
  - exists st. by rewrite manageIPPool_busy.
  - destruct (manageIPPool_run st Hm)
      as (new & later & st' & -> & _ & _ & _ & _ & ? & ? & ? & _).
    by exists st'.
Qed.

(** The three ways [initIPv6Pool] can go. *)
Lemma initIPv6Pool_cases st :
  (initialized (vars st) = true /\ initIPv6Pool st = (Returned true, st))
  \/ (initialized (vars st) = false
      /\ exists st', initIPv6Pool st = (Returned false, st') /\ vars st' = vars st)
  \/ (initialized (vars st) = false
      /\ exists st0 st1,
           vars st0 = vars st
           /\ manageIPPool st0 = (Returned tt, st1)
           /\ initIPv6Pool st
              = (Returned true,
                 set_initialized true
                   (set_poolTimer (Some (poolManageInterval config)) st1))).
Proof.
  unfold initIPv6Pool. munfold.
  destruct (initialized (vars st)) eqn:Hi; [by left|]. right.
  destruct (negb (truthy (Some (ipv6Prefix config)))
            || negb (truthy (Some (ipv6Subnet config)))); [left; by eauto|].
  destruct (checkInterface_run st) as (b & st0 & -> & Hv).
  destruct b; simpl; [|left; by eauto].
  right. split; [done|].
  destruct (manageIPPool_returns st0) as (st1 & Hrun & _).
  exists st0, st1. by rewrite Hrun.
Qed.

(** X13: [initIPv6Pool] never throws, and the boolean it returns is the
    value of [initialized] it leaves behind; when it returns [false] the
    pool variables are untouched (no pass has run, no timer is set). *)
Theorem init_result_is_initialized st :
  exists b st',
    initIPv6Pool st = (Returned b, st')
    /\ initialized (vars st') = b
    /\ (b = false -> vars st' = vars st).
Proof.
  destruct (initIPv6Pool_cases st)
    as [[Hi ->]|[[Hi (st' & -> & Hv)]|[Hi (st0 & st1 & _ & _ & ->)]]].
  - by exists true, st.
  - exists false, st'. by rewrite Hv.
  - by eexists true, _.
Qed.

Lemma next_idle depth st :
  initialized (vars st) = false \/ ipPool (vars st) = [] ->
  snd (getNextIPFromPool depth st) = st.
Proof.
  intros H. destruct depth as [|depth]; [done|]. simpl.
  destruct H as [-> | ->]; [done|]. by rewrite orb_true_r.
Qed.

(** The tail of [requestWithIPv6], after the source address is chosen,
    writes the [axios] log only. *)
Ltac request_tail :=
  destruct (negb (truthy _)); [by rewrite axios_run|];
  unfold newURL; destruct (parseURL _); [|done];
  rewrite axios_run;
  let e := fresh "e" in
  destruct (axiosOutcome _) as [?|e|]; simpl; [done| |done];
  destruct (isAddressFailure e); [by rewrite axios_run | done].

(** A dispatch changes the pool variables as one call of
    [getNextIPFromPool] does, or not at all. *)
Lemma requestWithIPv6_vars_cases depth url options ipv6 st :
  vars (snd (requestWithIPv6 depth url options ipv6 st)) = vars st
  \/ vars (snd (requestWithIPv6 depth url options ipv6 st))
     = vars (snd (getNextIPFromPool depth st)).
Proof.
  unfold requestWithIPv6, selectSource. munfold.
  destruct (negb (isIPv6RotationEnabled (id (vars st))) && negb (truthy ipv6)).
  { left. by rewrite axios_run. }
  destruct (truthy ipv6).
  - left. request_tail.
  - right. destruct (getNextIPFromPool depth st) as [[sourceIp| |] s1]; [|done..].
    simpl. request_tail.
Qed.

Lemma createIPv6StreamRequest_vars_cases depth method url headers ipv6 st :
  vars (snd (createIPv6StreamRequest depth method url headers ipv6 st)) = vars st
  \/ vars (snd (createIPv6StreamRequest depth method url headers ipv6 st))
     = vars (snd (getNextIPFromPool depth st)).
Proof.
  unfold createIPv6StreamRequest, newURL. munfold.
  destruct (parseURL url); [|by left].
  destruct (truthy ipv6); [left; by rewrite openRequest_vars|].
  destruct (isIPv6RotationEnabled (id (vars st))); [|left; by rewrite openRequest_vars].
  right. destruct (getNextIPFromPool depth st) as [[sourceIp| |] s1]; [|done..].
  by rewrite openRequest_vars.
Qed.

Lemma lifeCycleInv_next depth st :
  lifeCycleInv (vars st) -> lifeCycleInv (vars (snd (getNextIPFromPool depth st))).
Proof.
  intros (Hm & Hoff & Hon).
  destruct (initialized (vars st)) eqn:Hi.
  - destruct (getNextIPFromPool_frame depth st) as [i ->]. simpl.
    split; [done|]. split; [by rewrite Hi | by intros _; apply Hon].
  - rewrite next_idle by (by left). split; [done|]. by rewrite Hi.
Qed.

Lemma lifeCycleInv_op op st :
  lifeCycleInv (vars st) ->
  (op = CallManage -> poolTimer (vars st) <> None) ->
  lifeCycleInv (vars (runOp op st)).
Proof.
  intros Hinv Htick. pose proof Hinv as (Hm & Hoff & Hon).
  destruct op; simpl.
  - destruct (initIPv6Pool_cases st)
      as [[Hi ->]|[[Hi (st' & -> & Hv)]|[Hi (st0 & st1 & Hv0 & Hrun & ->)]]].
    + done.
    + simpl. by rewrite Hv.
    + simpl. rewrite <- Hv0 in Hm.
      pose proof (manageIPPool_mutex st0 Hm) as Hm1. rewrite Hrun in Hm1.
      split; [done|]. by split.
  - specialize (Htick eq_refl).
    destruct (initialized (vars st)) eqn:Hi.
    2:{ rewrite (Hoff eq_refl) in Htick. done. }
    destruct (manageIPPool_returns st) as (st' & -> & Hm' & Hi' & Ht'). simpl.
    split; [congruence|]. split; [congruence|]. intros _. rewrite Ht'. by apply Hon.
  - by apply lifeCycleInv_next.
  - destruct (initialized (vars st)) eqn:Hi.
    + rewrite stopIPv6Pool_run by done. simpl. rewrite Hm. by split.
    + by rewrite stopIPv6Pool_idle.
  - destruct (requestWithIPv6_vars_cases depth url options ipv6 st) as [-> | ->];
      [done | by apply lifeCycleInv_next].
  - destruct (createIPv6StreamRequest_vars_cases depth method url headers ipv6 st)
      as [-> | ->]; [done | by apply lifeCycleInv_next].
Qed.

(** X14: as long as calls follow one another (no call or timer tick
    begins while another call is suspended at an await), in every state
    the process reaches through the exported functions and the ticks of
    the interval timer no pass is left in flight, a pool that is not
    initialized has exactly the variables of the freshly loaded module
    (empty pool, cursor 0, no timer), and an initialized pool has its
    timer set. In particular [stopIPv6Pool], called between two passes,
    puts the module back where it started, and [initIPv6Pool] can start
    it again. *)
Theorem life_cycle_invariant st :
  reachableInTurn st ->
  poolMutex (vars st) = false
  /\ (initialized (vars st) = false -> vars st = initialVars)
  /\ (initialized (vars st) = true ->
      poolTimer (vars st) = Some (poolManageInterval config)).
Proof.
  induction 1 as [|st _ IH Ht|st op _ IH Hop].
  - by split.
  - by apply lifeCycleInv_op.
  - by apply lifeCycleInv_op.
Qed.

(** ** The cursor when every add is accepted *)

Lemma cursorSafe_next depth st :
  cursorSafe (vars st) -> cursorSafe (vars (snd (getNextIPFromPool depth st))).
Proof.
  intros Hs.
  destruct (initialized (vars st)) eqn:Hi; [|by rewrite next_idle by (by left)].
  pose proof Hs as [Hc|[Hp _]]; [|by rewrite next_idle by (by right)].
  left. pose proof (next_keeps_cursor_in_range depth st Hc) as Hc'.
  destruct (getNextIPFromPool_frame depth st) as [i Hf].
  rewrite Hf in Hc' |- *. exact Hc'.
Qed.

Lemma cursorSafe_manage st :
  (forall k ip, addAnswer (execReply k (addCommand ip)) = true) ->
  poolInv (vars st) ->
  cursorSafe (vars st) ->
  cursorSafe (vars (snd (manageIPPool st))).
Proof.
  intros Hok [Hm Hsz] Hs.
  destruct (manageIPPool_run st Hm)
    as (new & later & st' & Hrun & Hp & _ & _ & Hc & _).
  pose proof (manageIPPool_adds st new st' Hm Hok Hrun Hp) as Hlen.
  rewrite Hrun. clear Hrun.
  cbv zeta in *. simpl. unfold cursorSafe in Hs |- *.
  rewrite Hp, Hc. clear Hp Hc.
  set (pool := ipPool (vars st)) in *. set (c := currentIPIndex (vars st)) in *.
  destruct (Z.of_nat (length pool) >=? desiredPoolSize config) eqn:Hrep.
  - replace (Z.of_nat (length pool) <? desiredPoolSize config) with false in Hlen by lia.
    simpl in Hlen. destruct new; [|done]. rewrite app_nil_r. simpl.
    set (kept := slice (poolAddBatchSize config `min` Z.of_nat (length pool)) None pool).
    assert (length kept
            = (length pool
               - relIndex (length pool)
                   (poolAddBatchSize config `min` Z.of_nat (length pool)))%nat) as Hk
      by apply slice_from_length.
    destruct (0 <? length kept)%nat eqn:Hpos.
    + apply Nat.ltb_lt in Hpos.
      destruct (length kept <=? c)%nat eqn:Hle; simpl; left;
        [done | by apply Nat.leb_gt in Hle].
    + apply Nat.ltb_ge in Hpos. rewrite andb_false_r. right.
      assert (kept = []) as -> by (apply nil_length_inv; lia).
      split; [done|].
      destruct Hs as [Hin|[_ Hs]]; [|done].
      right. unfold relIndex in Hk.
      destruct (poolAddBatchSize config `min` Z.of_nat (length pool) <? 0) eqn:E; lia.
  - replace (Z.of_nat (length pool) <? desiredPoolSize config) with true in Hlen by lia.
    simpl in Hlen. simpl. rewrite length_app.
    destruct Hs as [Hin|[Hnil Hs]]; [left; lia|].
    rewrite Hnil in *. simpl in *.
    destruct Hs as [Hz|[Hb Hcd]].
    + destruct new as [|x new]; [right; by split; [|left] | left; simpl; lia].
    + left.
      assert ((0 <? poolAddBatchSize config
                    `min` (desiredPoolSize config - Z.of_nat 0)) = true) as E
        by (apply Z.ltb_lt; lia).
      rewrite E in Hlen. lia.
Qed.

Lemma cursorSafe_op op st :
  (forall k ip, addAnswer (execReply k (addCommand ip)) = true) ->
  poolInv (vars st) ->
  cursorSafe (vars st) ->
  cursorSafe (vars (runOp op st)).
Proof.
  intros Hok Hinv Hs. destruct op; simpl.
  - destruct (initIPv6Pool_cases st)
      as [[Hi ->]|[[Hi (st' & -> & Hv)]|[Hi (st0 & st1 & Hv0 & Hrun & ->)]]].
    + done.
    + simpl. by rewrite Hv.
    + rewrite <- Hv0 in Hinv, Hs.
      pose proof (cursorSafe_manage st0 Hok Hinv Hs) as Hs1. rewrite Hrun in Hs1.
      exact Hs1.
  - by apply cursorSafe_manage.
  - by apply cursorSafe_next.
  - destruct (initialized (vars st)) eqn:Hi.
    + rewrite stopIPv6Pool_run by done. right. by split; [|left].
    + by rewrite stopIPv6Pool_idle.
  - destruct (requestWithIPv6_vars_cases depth url options ipv6 st) as [-> | ->];
      [done | by apply cursorSafe_next].
  - destruct (createIPv6StreamRequest_vars_cases depth method url headers ipv6 st)
      as [-> | ->]; [done | by apply cursorSafe_next].
Qed.

(** X15: as long as every add command is accepted, the cursor invariant
    holds in every reachable state, whatever the removal commands answer
    and whatever the target and the batch are: the cursor is below the
    pool size whenever the pool is not empty. The stale cursor of C1
    needs a refused add. *)
Theorem cursor_in_range_when_adds_accepted st :
  (forall k ip, addAnswer (execReply k (addCommand ip)) = true) ->
  reachable st ->
  cursorInRange (vars st).
Proof.
  intros Hok Hr.
  assert (cursorSafe (vars st)) as Hs.
  { induction Hr as [|st op Hr IH].
    - right. by split; [|left].
    - apply cursorSafe_op; [done | by apply reachable_inv | done]. }
  intros Hn. destruct Hs as [Hc|[Hp _]]; [done|]. rewrite Hp in Hn. simpl in Hn. lia.
Qed.

(** ** A batch size that is not positive *)

Lemma manageIPPool_empty_stays st :
  poolAddBatchSize config <= 0 ->
  ipPool (vars st) = [] ->
  ipPool (vars (snd (manageIPPool st))) = [].
Proof.
  intros Hb Hp. destruct (poolMutex (vars st)) eqn:Hm.
  - by rewrite manageIPPool_busy.
  - destruct (manageIPPool_run st Hm) as (new & later & st' & -> & Hp' & Hlen & _).
    cbv zeta in *. simpl. rewrite Hp', Hp in *. simpl in *.
    assert ((0 <? poolAddBatchSize config
                  `min` (desiredPoolSize config - Z.of_nat 0)) = false) as E
      by (apply Z.ltb_ge; lia).
    rewrite E, andb_false_r in Hlen. destruct new; [|simpl in Hlen; lia].
    rewrite app_nil_r.
    by destruct (Z.of_nat 0 >=? desiredPoolSize config).
Qed.

(** X16: with a batch size of 0 or less the pool stays empty for ever:
    no pass adds an address, so [initIPv6Pool] can succeed and report the
    pool initialized while [getNextIPFromPool] has nothing to hand out. *)
Theorem nonpositive_batch_keeps_pool_empty st :
  poolAddBatchSize config <= 0 ->
  reachable st ->
  ipPool (vars st) = [].
Proof.
  intros Hb. induction 1 as [|st op _ IH]; [done|].
  destruct op; simpl.
  - destruct (initIPv6Pool_cases st)
      as [[Hi ->]|[[Hi (st' & -> & Hv)]|[Hi (st0 & st1 & Hv0 & Hrun & ->)]]].
    + done.
    + simpl. by rewrite Hv.
    + rewrite <- Hv0 in IH.
      pose proof (manageIPPool_empty_stays st0 Hb IH) as H1. rewrite Hrun in H1.
      exact H1.
  - by apply manageIPPool_empty_stays.
  - by destruct (getNextIPFromPool_frame depth st) as [i ->].
  - destruct (initialized (vars st)) eqn:Hi.
    + by rewrite stopIPv6Pool_run.
    + by rewrite stopIPv6Pool_idle.
  - by destruct (requestWithIPv6_vars depth url options ipv6 st) as [i ->].
  - by destruct (createIPv6StreamRequest_vars depth method url headers ipv6 st) as [i ->].
Qed.

(** ** More on the dispatcher *)

Lemma truthy_Some ip : ip <> EmptyString -> truthy (Some ip) = true.
Proof. intros H. simpl. by apply negb_true_iff, String.eqb_neq. Qed.

(** What [requestWithIPv6] logs once the bound request is under way. *)
Lemma requestWithIPv6_bound_log depth url options ipv6 st st1 sourceIp parsedUrl :
  (isIPv6RotationEnabled (vars st) || truthy ipv6) = true ->
  selectSource depth ipv6 st = (Returned (Some sourceIp), st1) ->
  sourceIp <> EmptyString ->
  parseURL url = Some parsedUrl ->
  let isHttps := String.eqb (protocol parsedUrl) "https:" in
  let bound := AxiosCfg (boundConfig url options isHttps (createIPv6Agent sourceIp isHttps)) in
  exists rest,
    axiosLog (world (snd (requestWithIPv6 depth url options ipv6 st)))
    = axiosLog (world st1) ++ bound :: rest
    /\ (rest = [] \/ rest = [AxiosUrl url options])
    /\ vars (snd (requestWithIPv6 depth url options ipv6 st)) = vars st1.
Proof.
  intros Hsel Hsrc Hne Hurl isHttps bound.
  rewrite (requestWithIPv6_bound depth url options ipv6 st st1 sourceIp parsedUrl
             Hsel Hsrc (truthy_Some _ Hne) Hurl).
  fold isHttps bound.
  destruct (axiosReply _ bound) as [response|error]; simpl.
  - exists []. by split; [|split; [left|]].
  - destruct (isAddressFailure error); simpl.
    + exists [AxiosUrl url options]. split; [by rewrite <- app_assoc|]. by split; [right|].
    + exists []. by split; [|split; [left|]].
Qed.

(** X17: an explicit source address is used as it is given: whether or
    not the pool is running and whether or not the address is in it,
    [requestWithIPv6] binds its first request to that address, makes at
    most one more (unbound) request, and leaves the pool variables, the
    cursor included, as they were. *)
Theorem explicit_address_bypasses_pool depth url options ip st parsedUrl :
  ip <> EmptyString ->
  parseURL url = Some parsedUrl ->
  let isHttps := String.eqb (protocol parsedUrl) "https:" in
  exists rest,
    axiosLog (world (snd (requestWithIPv6 depth url options (Some ip) st)))
    = axiosLog (world st)
      ++ AxiosCfg (boundConfig url options isHttps (createIPv6Agent ip isHttps)) :: rest
    /\ (rest = [] \/ rest = [AxiosUrl url options])
    /\ vars (snd (requestWithIPv6 depth url options (Some ip) st)) = vars st.
Proof.
  intros Hne Hurl isHttps.
  apply (requestWithIPv6_bound_log depth url options (Some ip) st st ip parsedUrl);
    try done.
  - rewrite (truthy_Some _ Hne). by rewrite orb_true_r.
  - unfold selectSource. by rewrite (truthy_Some _ Hne).
Qed.

(** X18: without an explicit address and with rotation enabled,
    [requestWithIPv6] binds its first request to the pool entry under the
    cursor (when that entry is a valid, non-empty address) and moves the
    cursor on by one, wrapping at the end of the pool: successive
    dispatches walk through the pool. *)
Theorem dispatch_takes_next_address depth url options st ip parsedUrl :
  initialized (vars st) = true ->
  ipPool (vars st) !! currentIPIndex (vars st) = Some ip ->
  isIPv6 ip = true ->
  ip <> EmptyString ->
  parseURL url = Some parsedUrl ->
  let isHttps := String.eqb (protocol parsedUrl) "https:" in
  exists rest,
    axiosLog (world (snd (requestWithIPv6 (S depth) url options None st)))
    = axiosLog (world st)
      ++ AxiosCfg (boundConfig url options isHttps (createIPv6Agent ip isHttps)) :: rest
    /\ (rest = [] \/ rest = [AxiosUrl url options])
    /\ vars (snd (requestWithIPv6 (S depth) url options None st))
       = vars (set_currentIPIndex
                 ((currentIPIndex (vars st) + 1) `mod` length (ipPool (vars st)))%nat st).
Proof.
  intros Hi Hl Hv Hne Hurl isHttps.
  destruct (requestWithIPv6_bound_log (S depth) url options None st
              (set_currentIPIndex
                 ((currentIPIndex (vars st) + 1) `mod` length (ipPool (vars st)))%nat st)
              ip parsedUrl) as (rest & Hlog & Hrest & Hvars); [| |done|done|].
  - unfold isIPv6RotationEnabled. rewrite Hi. simpl.
    apply lookup_lt_Some in Hl. rewrite orb_false_r. apply Nat.ltb_lt. lia.
  - unfold selectSource. simpl truthy. cbv iota.
    by apply getNextIPFromPool_hit.
  - exists rest. split; [exact Hlog|]. by split.
Qed.

(** X19: a URL that [new URL] rejects. The streaming variant throws
    before it looks at the pool: nothing is logged and the cursor stays.
    [requestWithIPv6], once it has a source address, throws the same
    error without making any request, but after the cursor has moved;
    and when rotation is off and no address is given it does not parse
    the URL at all and hands it to [axios]. *)
Theorem unparsable_url depth url st :
  parseURL url = None ->
  (forall method headers ipv6,
      createIPv6StreamRequest depth method url headers ipv6 st
      = (Thrown (mkJsError (Some "ERR_INVALID_URL") (Some "Invalid URL")), st))
  /\ (forall options ipv6 sourceIp st1,
        (isIPv6RotationEnabled (vars st) || truthy ipv6) = true ->
        selectSource depth ipv6 st = (Returned (Some sourceIp), st1) ->
        sourceIp <> EmptyString ->
        requestWithIPv6 depth url options ipv6 st
        = (Thrown (mkJsError (Some "ERR_INVALID_URL") (Some "Invalid URL")), st1))
  /\ (forall options,
        isIPv6RotationEnabled (vars st) = false ->
        requestWithIPv6 depth url options None st = axios (AxiosUrl url options) st).
Proof.
  intros Hurl. split; [|split].
  - intros method headers ipv6.
    unfold createIPv6StreamRequest, newURL. munfold. by rewrite Hurl.
  - intros options ipv6 sourceIp st1 Hsel Hsrc Hne.
    unfold requestWithIPv6. munfold.
    replace (negb (isIPv6RotationEnabled (id (vars st))) && negb (truthy ipv6))
      with false.
    2:{ unfold id. destruct (isIPv6RotationEnabled (vars st)), (truthy ipv6); done. }
    rewrite Hsrc, (truthy_Some _ Hne). simpl. unfold newURL. by rewrite Hurl.
  - intros options Hoff. unfold requestWithIPv6. munfold. unfold id. by rewrite Hoff.
Qed.

(** X20: the streaming variant neither calls [axios] nor runs a shell
    command; when the URL parses and the pool answers, it opens exactly
    one request, over [https.request] exactly for an [https:] URL, whose
    port is the port of the URL, or 443 or 80 according to the scheme
    when the URL names none. *)
Theorem stream_request_target depth method url headers ipv6 st req st' uri :
  parseURL url = Some uri ->
  createIPv6StreamRequest depth method url headers ipv6 st = (Returned req, st') ->
  viaHttps req = String.eqb (protocol uri) "https:"
  /\ roHostname (reqOptions req) = hostname uri
  /\ roPath (reqOptions req) = pathname uri +:+ search uri
  /\ roPort (reqOptions req)
     = (if String.eqb (port uri) EmptyString
        then inr (if String.eqb (protocol uri) "https:" then 443 else 80)
        else inl (port uri))
  /\ execLog (world st') = execLog (world st)
  /\ axiosLog (world st') = axiosLog (world st)
  /\ streamLog (world st') = streamLog (world st) ++ [req].
Proof.
  intros Hurl. unfold createIPv6StreamRequest, newURL. munfold.
  rewrite Hurl.
  assert (Hopen : forall isHttps options s1,
             openRequest isHttps options s1 = (Returned req, st') ->
             req = mkClientRequest isHttps options /\ st' = log_stream req s1).
  { intros isHttps options s1 Hrun.
    destruct (openRequest_cases isHttps options s1) as [[Hok _]|(a & _ & _ & Hthrow)];
      [|by rewrite Hthrow in Hrun].
    rewrite Hok in Hrun. by injection Hrun as <- <-. }
  destruct (truthy ipv6).
  { intros [-> ->]%Hopen. simpl. by destruct (String.eqb (port uri) EmptyString). }
  destruct (isIPv6RotationEnabled _).
  2:{ intros [-> ->]%Hopen. simpl. by destruct (String.eqb (port uri) EmptyString). }
  destruct (getNextIPFromPool_frame depth st) as [i Hi].
  destruct (getNextIPFromPool depth st) as [[sourceIp| |] s1]; simpl in Hi; subst s1;
    [|done..].
  intros [-> ->]%Hopen. simpl. by destruct (String.eqb (port uri) EmptyString).
Qed.

End Embedding.

(** * The sample oracles *)

(** The sample validity check on the addresses of the examples: the
    addresses of [samplePool] and the compressed form pass; a string of
    seven groups, eight groups next to a double colon, and a group that is
    not hexadecimal do not. *)
Lemma sampleIsIPv6_examples :
  Forall (fun ip => sampleIsIPv6 ip = true) samplePool
  /\ sampleIsIPv6 "2001:db8:1000::4" = true
  /\ sampleIsIPv6 "2001:db8:1000:0000:000b:0001:000c" = false
  /\ sampleIsIPv6 "1:2:3:4:5:6:7::8" = false
  /\ sampleIsIPv6 "zzzz:1000::1" = false
  /\ sampleIsIPv6 EmptyString = false.
Proof. split; [repeat constructor | by vm_compute]. Qed.

Lemma isIPv4_examples :
  isIPv4 "192.168.1.10" = true
  /\ isIPv4 "192.168.1.256" = false
  /\ isIPv4 "192.168.01.1" = false
  /\ isIPv4 "192.168.1" = false
  /\ isIPv4 "2001:db8:1000::4" = false.
Proof. by vm_compute. Qed.

(** The streaming variant handed a string of seven groups, which is not
    an IP address: the request function throws and nothing is opened. *)
Lemma stream_request_bad_address :
  let st := sampleStarted samplePool 0 in
  createIPv6StreamRequest sampleIsIPv6 sampleParseURL 4 "GET"
    "https://example.com/live/seg1.ts" [] (Some "2001:db8:1000:0000:000b:0001:000c") st
  = (Thrown (mkJsError (Some "ERR_INVALID_IP_ADDRESS")
               (Some "Invalid IP address: 2001:db8:1000:0000:000b:0001:000c")), st).
Proof. by vm_compute. Qed.

(** * The claims on concrete runs *)

(** C1: the cursor invariant fails in a reachable state. Target 3, batch
    3, the interface up: the first pass adds three addresses, two calls of
    [getNextIPFromPool] move the cursor to 2, the second pass detaches all
    three entries and leaves the cursor at 2 because the pool is now
    empty, and the third pass, in which only the first of three additions
    is accepted, leaves one address under a cursor of 2; the next read of
    the pool at the cursor finds nothing. *)
Theorem cursor_left_out_of_range :
  let run := runOps (sampleConfig 3 3) linux (sampleExec 8) sampleRandom
                    sampleInterfaces sampleIsIPv6 sampleParseURL
                    (sampleAxios "EADDRNOTAVAIL") in
  let st := run [CallInit; CallNext 4; CallNext 4; CallManage; CallManage] initialState in
  reachable (sampleConfig 3 3) linux (sampleExec 8) sampleRandom
            sampleInterfaces sampleIsIPv6 sampleParseURL
            (sampleAxios "EADDRNOTAVAIL") st
  /\ ipPool (vars (run [CallInit; CallNext 4; CallNext 4; CallManage] initialState)) = []
  /\ vars st = mkPoolVars ["2001:db8:85a3:1000:0006:0011:0007:0012"] false 2 true (Some 5000)
  /\ ipPool (vars st) !! currentIPIndex (vars st) = None
  /\ ~ cursorInRange (vars st).
Proof.
  cbv zeta. split; [apply reachable_runOps; constructor|].
  split; [by vm_compute|].
  assert (Hv : vars (runOps (sampleConfig 3 3) linux (sampleExec 8)
      sampleRandom sampleInterfaces sampleIsIPv6 sampleParseURL
      (sampleAxios "EADDRNOTAVAIL")
      [CallInit; CallNext 4; CallNext 4; CallManage; CallManage] initialState)
      = mkPoolVars ["2001:db8:85a3:1000:0006:0011:0007:0012"] false 2 true (Some 5000))
    by (by vm_compute).
  rewrite Hv. split; [done|]. split; [done|].
  unfold cursorInRange. simpl. lia.
Qed.

(** C2, counterexample: target 3, batch 3, every command succeeding. After
    [initIPv6Pool] and one call of [getNextIPFromPool] the pool holds
    three addresses, all of them valid (eight groups), and the cursor is
    at 1. The next three calls return the second, the third and the first
    address: every address once, but not oldest first. And on a two-entry
    pool whose first entry is not an IPv6 address and whose second is,
    two calls return the second entry twice. *)
Lemma next_cycle_counterexample :
  let st := runOps (sampleConfig 3 3) linux sampleExecOk sampleRandom
                   sampleInterfaces sampleIsIPv6 sampleParseURL
                   (sampleAxios "EADDRNOTAVAIL") [CallInit; CallNext 4] initialState in
  (initialized (vars st) = true
   /\ ipPool (vars st) = samplePool
   /\ Forall (fun ip => sampleIsIPv6 ip = true) (ipPool (vars st))
   /\ currentIPIndex (vars st) = 1%nat
   /\ fst (callNext sampleIsIPv6 4 3 st)
      = Returned [Some "2001:db8:85a3:1000:0002:000d:0003:000e";
                  Some "2001:db8:85a3:1000:0004:000f:0005:0010";
                  Some "2001:db8:85a3:1000:0000:000b:0001:000c"]
   /\ fst (callNext sampleIsIPv6 4 3 st) <> Returned (map Some (ipPool (vars st))))
  /\ sampleIsIPv6 "zzzz:1000::1" = false
  /\ sampleIsIPv6 "2001:db8:85a3:1000:0000:000b:0001:000c" = true
  /\ fst (callNext sampleIsIPv6 4 2
            (sampleStarted ["zzzz:1000::1"; "2001:db8:85a3:1000:0000:000b:0001:000c"] 0))
     = Returned [Some "2001:db8:85a3:1000:0000:000b:0001:000c";
                 Some "2001:db8:85a3:1000:0000:000b:0001:000c"].
Proof.
  cbv zeta. split; [|by vm_compute].
  split; [by vm_compute|]. split; [by vm_compute|].
  split; [by vm_compute; repeat constructor|]. split; [by vm_compute|].
  split; [by vm_compute|].
  intros H. vm_compute in H. discriminate.
Qed.

(** [next_round_robin] on the sample pool, with the cursor at 1 and at 0. *)
Lemma next_round_robin_witness :
  let st := sampleStarted samplePool 1 in
  callNext sampleIsIPv6 4 3 st
  = (Returned [Some "2001:db8:85a3:1000:0002:000d:0003:000e";
               Some "2001:db8:85a3:1000:0004:000f:0005:0010";
               Some "2001:db8:85a3:1000:0000:000b:0001:000c"], st)
  /\ callNext sampleIsIPv6 4 3 (sampleStarted samplePool 0)
     = (Returned (map Some samplePool), sampleStarted samplePool 0).
Proof.
  split.
  - apply (next_round_robin sampleIsIPv6 (sampleStarted samplePool 1) 3).
    + reflexivity.
    + simpl. lia.
    + repeat constructor.
  - apply (next_round_robin sampleIsIPv6 (sampleStarted samplePool 0) 3).
    + reflexivity.
    + simpl. lia.
    + repeat constructor.
Defined.

(** C3, counterexample: a running pool whose only entry is not an IPv6
    address. [getNextIPFromPool] does not come back, with [None] or with
    anything else, however many activations it is given. *)
Lemma next_all_invalid_counterexample :
  let st := sampleStarted ["zzzz:1000:0000:000b:0001:000c"] 0 in
  Forall (fun ip => sampleIsIPv6 ip = false) (ipPool (vars st))
  /\ ~ exists depth r st', getNextIPFromPool sampleIsIPv6 depth st = (Returned r, st').
Proof.
  cbv zeta. split; [repeat constructor|].
  intros (depth & r & st' & H).
  pose proof (next_all_invalid sampleIsIPv6 depth
                (sampleStarted ["zzzz:1000:0000:000b:0001:000c"] 0)) as Hx.
  rewrite H in Hx. simpl in Hx.
  assert (Returned r = Exhausted) as Habs; [|discriminate].
  apply Hx; [reflexivity | simpl; lia | repeat constructor].
Qed.

(** [next_skip_recursion] on a pool whose first entry is invalid and whose
    second is valid, and on a pool whose only entry is invalid. *)
Lemma next_skip_recursion_witness :
  (exists ip' st',
      getNextIPFromPool sampleIsIPv6 3
        (sampleStarted ["zzzz:1000::1"; "2001:db8:85a3:1000:0000:000b:0001:000c"] 0)
      = (Returned (Some ip'), st')
      /\ sampleIsIPv6 ip' = true
      /\ ip' ∈ ["zzzz:1000::1"; "2001:db8:85a3:1000:0000:000b:0001:000c"])
  /\ forall depth,
       fst (getNextIPFromPool sampleIsIPv6 depth (sampleStarted ["zzzz:1000::1"] 0))
       = Exhausted.
Proof.
  split.
  - apply (proj1 (next_skip_recursion sampleIsIPv6
             (sampleStarted ["zzzz:1000::1"; "2001:db8:85a3:1000:0000:000b:0001:000c"] 0)
             eq_refl) 1%nat "2001:db8:85a3:1000:0000:000b:0001:000c" 3%nat).
    + reflexivity.
    + reflexivity.
    + simpl. lia.
  - apply (proj2 (next_skip_recursion sampleIsIPv6
             (sampleStarted ["zzzz:1000::1"] 0) eq_refl)).
    + simpl. lia.
    + repeat constructor.
Defined.

(** C4, counterexample: a target of -1 (as [IPV6_POOL_SIZE=-1] gives).
    [initIPv6Pool] succeeds, every pass leaves the pool empty, and 0 is
    not at most -1. *)
Lemma negative_target_counterexample :
  let st := runOps (sampleConfig (-1) 2) linux sampleExecOk sampleRandom
                   sampleInterfaces sampleIsIPv6 sampleParseURL
                   (sampleAxios "EADDRNOTAVAIL") [CallInit; CallManage] initialState in
  initialized (vars st) = true
  /\ ipPool (vars st) = []
  /\ ~ (Z.of_nat (length (ipPool (vars st))) <= desiredPoolSize (sampleConfig (-1) 2)).
Proof.
  cbv zeta. split; [by vm_compute|]. split; [by vm_compute|].
  intros H. vm_compute in H. by apply H.
Qed.

(** [pool_size_bounded_after_pass] with target 3, batch 2, after a start, a
    pass and a call of [getNextIPFromPool]; only the first three commands
    succeed. *)
Lemma pool_size_bounded_after_pass_witness :
  let run := runOps (sampleConfig 3 2) linux (sampleExec 3) sampleRandom
                    sampleInterfaces sampleIsIPv6 sampleParseURL
                    (sampleAxios "EADDRNOTAVAIL") in
  let st := run [CallInit; CallManage; CallNext 4] initialState in
  fst (manageIPPool (sampleConfig 3 2) linux (sampleExec 3) sampleRandom st) = Returned tt
  /\ Z.of_nat (length (ipPool (vars (snd
        (manageIPPool (sampleConfig 3 2) linux (sampleExec 3) sampleRandom st))))) <= 3.
Proof.
  cbv zeta.
  apply (pool_size_bounded_after_pass (sampleConfig 3 2) linux (sampleExec 3) sampleRandom
           sampleInterfaces sampleIsIPv6 sampleParseURL (sampleAxios "EADDRNOTAVAIL")).
  - simpl. lia.
  - apply reachable_runOps. constructor.
Defined.

(** C5, counterexample: target 5, batch 2, every command succeeding. Three
    passes fill the pool with five addresses; the pass after them leaves
    three addresses, not five: it removes the two oldest and adds none. *)
Lemma replacement_pass_counterexample :
  let st := runOps (sampleConfig 5 2) linux sampleExecOk sampleRandom
                   sampleInterfaces sampleIsIPv6 sampleParseURL
                   (sampleAxios "EADDRNOTAVAIL")
                   [CallInit; CallManage; CallManage] initialState in
  let st' := snd (manageIPPool (sampleConfig 5 2) linux sampleExecOk sampleRandom st) in
  length (ipPool (vars st)) = 5%nat
  /\ ipPool (vars st') = drop 2 (ipPool (vars st))
  /\ length (ipPool (vars st')) = 3%nat
  /\ length (ipPool (vars st')) <> 5%nat.
Proof.
  cbv zeta. split; [by vm_compute|]. split; [by vm_compute|]. split; [by vm_compute|].
  intros H. vm_compute in H. discriminate.
Qed.

(** [replacement_takes_two_passes] on a running pool of five addresses. *)
Lemma replacement_takes_two_passes_witness :
  let st := sampleStarted (samplePool ++ ["2001:db8:1000::4"; "2001:db8:1000::5"]) 0 in
  exists st1 st2 n1 n2,
    manageIPPool (sampleConfig 5 2) linux sampleExecOk sampleRandom st = (Returned tt, st1)
    /\ ipPool (vars st1)
       = ["2001:db8:85a3:1000:0004:000f:0005:0010"; "2001:db8:1000::4"; "2001:db8:1000::5"]
    /\ execLog (world st1)
       = execLog (world st)
         ++ [removeCommand (sampleConfig 5 2) linux "2001:db8:85a3:1000:0000:000b:0001:000c";
             removeCommand (sampleConfig 5 2) linux "2001:db8:85a3:1000:0002:000d:0003:000e"]
    /\ manageIPPool (sampleConfig 5 2) linux sampleExecOk sampleRandom st1 = (Returned tt, st2)
    /\ ipPool (vars st2)
       = ["2001:db8:85a3:1000:0004:000f:0005:0010"; "2001:db8:1000::4"; "2001:db8:1000::5";
          n1; n2].
Proof.
  cbv zeta.
  apply (replacement_takes_two_passes (sampleConfig 5 2) linux sampleExecOk sampleRandom).
  - reflexivity.
  - reflexivity.
  - reflexivity.
  - reflexivity.
  - intros k cmd. exists sampleLinkUp. reflexivity.
Defined.

(** [dispatch_fallback] with an explicit source address: the bound request
    fails with [EADDRNOTAVAIL] and with [ENETUNREACH] (fallback, answer
    200), then with [ECONNRESET] (rethrown). *)
Lemma dispatch_fallback_witness :
  let st := sampleStarted samplePool 0 in
  let url := "https://example.com/live/seg1.ts" in
  let source := "2001:db8:85a3:1000:0002:000d:0003:000e" in
  let bound := AxiosCfg (boundConfig url emptyOptions true (createIPv6Agent source true)) in
  requestWithIPv6 sampleIsIPv6 sampleParseURL (sampleAxios "EADDRNOTAVAIL") 4
                  url emptyOptions (Some source) st
  = (Returned (mkResponse 200 "#EXTM3U"),
     log_axios (AxiosUrl url emptyOptions) (log_axios bound st))
  /\ requestWithIPv6 sampleIsIPv6 sampleParseURL (sampleAxios "ENETUNREACH") 4
                     url emptyOptions (Some source) st
     = (Returned (mkResponse 200 "#EXTM3U"),
        log_axios (AxiosUrl url emptyOptions) (log_axios bound st))
  /\ requestWithIPv6 sampleIsIPv6 sampleParseURL (sampleAxios "ECONNRESET") 4
                     url emptyOptions (Some source) st
     = (Thrown (mkJsError (Some "ECONNRESET") (Some "connect failed")),
        log_axios bound st).
Proof.
  cbv zeta. split; [|split].
  - apply (proj1 (dispatch_fallback sampleIsIPv6 sampleParseURL (sampleAxios "EADDRNOTAVAIL")
             4 "https://example.com/live/seg1.ts" emptyOptions
             (Some "2001:db8:85a3:1000:0002:000d:0003:000e")
             (sampleStarted samplePool 0) (sampleStarted samplePool 0)
             "2001:db8:85a3:1000:0002:000d:0003:000e"
             (mkURL "https:" "example.com" EmptyString "/live/seg1.ts" EmptyString)
             (mkJsError (Some "EADDRNOTAVAIL") (Some "connect failed"))
             eq_refl eq_refl eq_refl eq_refl eq_refl)).
    left. reflexivity.
  - apply (proj1 (dispatch_fallback sampleIsIPv6 sampleParseURL (sampleAxios "ENETUNREACH")
             4 "https://example.com/live/seg1.ts" emptyOptions
             (Some "2001:db8:85a3:1000:0002:000d:0003:000e")
             (sampleStarted samplePool 0) (sampleStarted samplePool 0)
             "2001:db8:85a3:1000:0002:000d:0003:000e"
             (mkURL "https:" "example.com" EmptyString "/live/seg1.ts" EmptyString)
             (mkJsError (Some "ENETUNREACH") (Some "connect failed"))
             eq_refl eq_refl eq_refl eq_refl eq_refl)).
    right. reflexivity.
  - apply (proj2 (dispatch_fallback sampleIsIPv6 sampleParseURL (sampleAxios "ECONNRESET")
             4 "https://example.com/live/seg1.ts" emptyOptions
             (Some "2001:db8:85a3:1000:0002:000d:0003:000e")
             (sampleStarted samplePool 0) (sampleStarted samplePool 0)
             "2001:db8:85a3:1000:0002:000d:0003:000e"
             (mkURL "https:" "example.com" EmptyString "/live/seg1.ts" EmptyString)
             (mkJsError (Some "ECONNRESET") (Some "connect failed"))
             eq_refl eq_refl eq_refl eq_refl eq_refl)).
    + discriminate.
    + discriminate.
Defined.

(** [stop_drains_pool] on a running pool of three addresses, the second and
    third removal being refused, and on the freshly loaded module. *)
Lemma stop_drains_pool_witness :
  (exists st',
      stopIPv6Pool (sampleConfig 3 3) linux (sampleExec 1) (sampleStarted samplePool 2)
      = (Returned tt, st')
      /\ execLog (world st')
         = execLog (world (sampleStarted samplePool 2))
           ++ map (removeCommand (sampleConfig 3 3) linux) samplePool
      /\ ipPool (vars st') = []
      /\ currentIPIndex (vars st') = 0%nat
      /\ initialized (vars st') = false
      /\ stopIPv6Pool (sampleConfig 3 3) linux (sampleExec 1) st' = (Returned tt, st'))
  /\ stopIPv6Pool (sampleConfig 3 3) linux (sampleExec 1) initialState
     = (Returned tt, initialState).
Proof.
  split.
  - apply (proj1 (stop_drains_pool (sampleConfig 3 3) linux (sampleExec 1)
                    (sampleStarted samplePool 2))).
    reflexivity.
  - apply (proj2 (stop_drains_pool (sampleConfig 3 3) linux (sampleExec 1) initialState)).
    reflexivity.
Defined.

(** C8, counterexample: the streaming variant, given a valid IPv6 source
    address, opens its request with that address as local address and
    with neither an agent nor a timeout; and [requestWithIPv6] on a pool
    that is not running makes the caller's unbound call, to which it adds
    no timeout. *)
Lemma stream_request_counterexample :
  sampleIsIPv6 "2001:db8:85a3:1000:0002:000d:0003:000e" = true
  /\ createIPv6StreamRequest sampleIsIPv6 sampleParseURL 4 "GET"
       "https://example.com/live/seg1.ts" []
       (Some "2001:db8:85a3:1000:0002:000d:0003:000e") (sampleStarted samplePool 0)
     = (let req := mkClientRequest true
                     (mkRequestOptions "example.com" (inr 443) "/live/seg1.ts" "GET" []
                        (Some "2001:db8:85a3:1000:0002:000d:0003:000e") None None) in
        (Returned req, log_stream req (sampleStarted samplePool 0)))
  /\ axiosLog (world (snd (requestWithIPv6 sampleIsIPv6 sampleParseURL
                             (sampleAxios "ENETUNREACH") 4
                             "https://example.com/live/seg1.ts" emptyOptions None
                             initialState)))
     = [AxiosUrl "https://example.com/live/seg1.ts"
                 (mkAxiosConfig None None None None [])].
Proof. split; [by vm_compute|]. split; by vm_compute. Qed.

(** [transport_parameters] on a streaming request that takes its source
    address from the pool, and on a buffered request over [http:] bound
    to an address handed in. *)
Lemma transport_parameters_witness :
  (exists req st',
      createIPv6StreamRequest sampleIsIPv6 sampleParseURL 4 "GET"
        "http://example.com/live/seg1.ts" [] None (sampleStarted samplePool 0)
      = (Returned req, st')
      /\ roAgent (reqOptions req) = None
      /\ roTimeout (reqOptions req) = None
      /\ roLocalAddress (reqOptions req) = Some "2001:db8:85a3:1000:0000:000b:0001:000c"
      /\ (forall address,
            roLocalAddress (reqOptions req) = Some address ->
            isIPv4 address = true \/ sampleIsIPv6 address = true)
      /\ streamLog (world st') = streamLog (world (sampleStarted samplePool 0)) ++ [req])
  /\ exists calls,
       axiosLog (world (snd (requestWithIPv6 sampleIsIPv6 sampleParseURL
                               (sampleAxios "ECONNRESET") 4
                               "http://example.com/live/seg1.ts" emptyOptions
                               (Some "2001:db8:85a3:1000:0004:000f:0005:0010")
                               initialState)))
       = axiosLog (world initialState) ++ calls
       /\ Forall (fun call =>
                    call = AxiosUrl "http://example.com/live/seg1.ts" emptyOptions
                    \/ exists sourceIp parsedUrl,
                         sampleParseURL "http://example.com/live/seg1.ts" = Some parsedUrl
                         /\ (Some "2001:db8:85a3:1000:0004:000f:0005:0010" = Some sourceIp
                             \/ truthy (Some "2001:db8:85a3:1000:0004:000f:0005:0010") = false
                                /\ fst (getNextIPFromPool sampleIsIPv6 4 initialState)
                                   = Returned (Some sourceIp))
                         /\ let isHttps := String.eqb (protocol parsedUrl) "https:" in
                            let agent := mkAgent isHttps true 30000 sourceIp in
                            call = AxiosCfg
                                     (mkAxiosConfig (Some "http://example.com/live/seg1.ts")
                                        (if isHttps then None else Some agent)
                                        (if isHttps then Some agent else None)
                                        (cfgTimeout emptyOptions) (cfgOther emptyOptions)))
                 calls.
Proof.
  split.
  - eexists _, _. split; [cbv; reflexivity|].
    apply (proj2 (proj2 (transport_parameters sampleIsIPv6 sampleParseURL
                           (sampleAxios "ECONNRESET")))
             4%nat "GET" "http://example.com/live/seg1.ts" [] None
             (sampleStarted samplePool 0)).
    reflexivity.
  - apply (proj1 (proj2 (transport_parameters sampleIsIPv6 sampleParseURL
                           (sampleAxios "ECONNRESET")))
             4%nat "http://example.com/live/seg1.ts" emptyOptions
             (Some "2001:db8:85a3:1000:0004:000f:0005:0010") initialState).
Defined.


(** [empty_pool_status_and_dispatch] on the state [initIPv6Pool] leaves when
    the interface is up and every add command is refused. *)
Lemma empty_pool_status_and_dispatch_witness :
  let st := snd (initIPv6Pool (sampleConfig 3 3) linux (sampleExec 1) sampleRandom
                   sampleInterfaces initialState) in
  (initialized (vars st) = true /\ ipPool (vars st) = [])
  /\ enabled (getIPv6PoolInfo (sampleConfig 3 3) (vars st)) = true
  /\ poolSize (getIPv6PoolInfo (sampleConfig 3 3) (vars st)) = 0%nat
  /\ isIPv6RotationEnabled (vars st) = false
  /\ forall depth url options,
       requestWithIPv6 sampleIsIPv6 sampleParseURL (sampleAxios "ENETUNREACH")
                       depth url options None st
       = axios (sampleAxios "ENETUNREACH") (AxiosUrl url options) st.
Proof.
  cbv zeta. split; [split; reflexivity|].
  apply (empty_pool_status_and_dispatch (sampleConfig 3 3) sampleIsIPv6 sampleParseURL
           (sampleAxios "ENETUNREACH")).
  - reflexivity.
  - reflexivity.
Defined.

(** * The further properties on concrete runs *)

(** [checkInterface_linux] on an interface that [ip link show] reports up. *)
Lemma checkInterface_linux_witness :
  fst (checkInterface (sampleConfig 3 3) linux sampleExecOk sampleInterfaces initialState)
  = Returned true.
Proof.
  apply (proj2 (checkInterface_linux (sampleConfig 3 3) linux sampleExecOk
                  sampleInterfaces initialState eq_refl)).
  exists sampleLinkUp, "2: eth0: <BROADCAST,MULTICAST,UP,LOWER_UP> mtu 1500 ", EmptyString.
  split; [reflexivity | left; reflexivity].
Defined.

(** [add_failure_tolerated] on an add that fails with [File exists]. *)
Lemma add_failure_tolerated_witness :
  fst (addIPv6ToInterface (sampleConfig 3 3) linux sampleExecExists
         "2001:db8:1000::4" initialState)
  = Returned true.
Proof.
  apply (proj2 (add_failure_tolerated (sampleConfig 3 3) linux sampleExecExists
                  "2001:db8:1000::4" initialState
                  (mkJsError None (Some "Command failed: RTNETLINK answers: File exists"))
                  eq_refl)).
  exists "Command failed: RTNETLINK answers: ", EmptyString. reflexivity.
Defined.

(** [next_result_sound] on the sample pool with the cursor at 1. *)
Lemma next_result_sound_witness :
  initialized (vars (sampleStarted samplePool 1)) = true
  /\ "2001:db8:85a3:1000:0002:000d:0003:000e" ∈ ipPool (vars (sampleStarted samplePool 1))
  /\ sampleIsIPv6 "2001:db8:85a3:1000:0002:000d:0003:000e" = true.
Proof.
  exact (next_result_sound sampleIsIPv6 4 (sampleStarted samplePool 1)
           (Returned (Some "2001:db8:85a3:1000:0002:000d:0003:000e"))
           (set_currentIPIndex 2 (sampleStarted samplePool 1)) eq_refl).
Defined.

(** [next_repairs_cursor] on the state C1 ends in: one address, cursor 2. *)
Lemma next_repairs_cursor_witness :
  let st := sampleStarted ["2001:db8:85a3:1000:0006:0011:0007:0012"] 2 in
  (currentIPIndex (vars (snd (getNextIPFromPool sampleIsIPv6 4 st)))
   < length (ipPool (vars (snd (getNextIPFromPool sampleIsIPv6 4 st)))))%nat.
Proof.
  cbv zeta. apply next_repairs_cursor.
  - reflexivity.
  - simpl. lia.
  - lia.
Defined.

(** [pass_evicts_front_appends_back] on a full pool of three, batch 2. *)
Lemma pass_evicts_front_appends_back_witness :
  let st := sampleStarted samplePool 0 in
  exists removed kept new later st',
    manageIPPool (sampleConfig 3 2) linux sampleExecOk sampleRandom st = (Returned tt, st')
    /\ ipPool (vars st) = removed ++ kept
    /\ ipPool (vars st') = kept ++ new
    /\ execLog (world st')
       = execLog (world st) ++ map (removeCommand (sampleConfig 3 2) linux) removed ++ later.
Proof.
  cbv zeta.
  apply (pass_evicts_front_appends_back (sampleConfig 3 2) linux sampleExecOk sampleRandom
           (sampleStarted samplePool 0)).
  reflexivity.
Defined.

(** [pass_removes_or_adds] on the freshly loaded module, target 3, batch 2. *)
Lemma pass_removes_or_adds_witness :
  let pass := manageIPPool (sampleConfig 3 2) linux (sampleExec 1) sampleRandom in
  exists removed added,
    execLog (world (snd (pass initialState)))
    = execLog (world initialState)
      ++ map (removeCommand (sampleConfig 3 2) linux) removed
      ++ map (addCommand (sampleConfig 3 2) linux) added
    /\ ((removed = [] /\ exists new, ipPool (vars (snd (pass initialState)))
                                     = ipPool (vars initialState) ++ new)
        \/ (added = [] /\ ipPool (vars initialState)
                          = removed ++ ipPool (vars (snd (pass initialState))))).
Proof.
  cbv zeta.
  apply (pass_removes_or_adds (sampleConfig 3 2) linux (sampleExec 1) sampleRandom
           initialState).
  reflexivity.
Defined.

(** [pass_adds_only_accepted] on the same pass: the second add is refused. *)
Lemma pass_adds_only_accepted_witness :
  let pass := manageIPPool (sampleConfig 3 2) linux (sampleExec 1) sampleRandom in
  exists removed kept new,
    ipPool (vars initialState) = removed ++ kept
    /\ ipPool (vars (snd (pass initialState))) = kept ++ new
    /\ forall ip, ip ∈ new ->
         exists k, (length (execLog (world initialState)) <= k)%nat
                   /\ execLog (world (snd (pass initialState))) !! k
                      = Some (addCommand (sampleConfig 3 2) linux ip)
                   /\ addAnswer (sampleExec 1 k (addCommand (sampleConfig 3 2) linux ip))
                      = true.
Proof.
  cbv zeta.
  apply (pass_adds_only_accepted (sampleConfig 3 2) linux (sampleExec 1) sampleRandom
           initialState).
  reflexivity.
Defined.


(** [passes_fill_pool]: empty pool, target 3, batch 2, removals refused:
    both passes start below the target, and the pool holds three
    addresses after them. *)
Lemma passes_fill_pool_witness :
  Z.of_nat (length (ipPool (vars
     (runOps (sampleConfig 3 2) linux sampleExecNoRemoval sampleRandom sampleInterfaces
             sampleIsIPv6 sampleParseURL (sampleAxios "ENETUNREACH")
             (replicate 2 CallManage) initialState))))
  = 3.
Proof.
  exact (passes_fill_pool (sampleConfig 3 2) linux sampleExecNoRemoval sampleRandom
           sampleInterfaces sampleIsIPv6 sampleParseURL (sampleAxios "ENETUNREACH")
           2 initialState eq_refl (fun k ip => eq_refl) eq_refl eq_refl
           ltac:(simpl; lia)).
Defined.

(** [two_passes_rotate_batch] on a full pool of three, batch 2, every
    removal being refused. *)
Lemma two_passes_rotate_batch_witness :
  let st := sampleStarted samplePool 0 in
  exists st1 st2 new,
    manageIPPool (sampleConfig 3 2) linux sampleExecNoRemoval sampleRandom st
    = (Returned tt, st1)
    /\ ipPool (vars st1) = drop 2 (ipPool (vars st))
    /\ execLog (world st1)
       = execLog (world st)
         ++ map (removeCommand (sampleConfig 3 2) linux) (take 2 (ipPool (vars st)))
    /\ manageIPPool (sampleConfig 3 2) linux sampleExecNoRemoval sampleRandom st1
       = (Returned tt, st2)
    /\ ipPool (vars st2) = drop 2 (ipPool (vars st)) ++ new
    /\ length new = 2%nat
    /\ Z.of_nat (length (ipPool (vars st2))) = 3.
Proof.
  exact (two_passes_rotate_batch (sampleConfig 3 2) linux sampleExecNoRemoval sampleRandom
           (sampleStarted samplePool 0) eq_refl (fun k ip => eq_refl) eq_refl
           ltac:(simpl; lia)).
Defined.

(** [life_cycle_invariant] after a start and a stop: the variables are
    those of the freshly loaded module. *)
Lemma life_cycle_invariant_witness :
  let run := runOp (sampleConfig 3 2) linux sampleExecOk sampleRandom sampleInterfaces
                   sampleIsIPv6 sampleParseURL (sampleAxios "ENETUNREACH") in
  vars (run CallStop (run CallInit initialState)) = initialVars.
Proof.
  cbv zeta.
  apply (life_cycle_invariant (sampleConfig 3 2) linux sampleExecOk sampleRandom
           sampleInterfaces sampleIsIPv6 sampleParseURL (sampleAxios "ENETUNREACH")).
  - apply inTurn_call; [apply inTurn_call; [apply inTurn_initial | discriminate]
                      | discriminate].
  - reflexivity.
Defined.

(** [cursor_in_range_when_adds_accepted] on the run of C1 with every add
    accepted and every removal refused. *)
Lemma cursor_in_range_when_adds_accepted_witness :
  cursorInRange (vars
    (runOps (sampleConfig 3 3) linux sampleExecNoRemoval sampleRandom sampleInterfaces
            sampleIsIPv6 sampleParseURL (sampleAxios "ENETUNREACH")
            [CallInit; CallNext 4; CallNext 4; CallManage; CallManage] initialState)).
Proof.
  apply (cursor_in_range_when_adds_accepted (sampleConfig 3 3) linux sampleExecNoRemoval
           sampleRandom sampleInterfaces sampleIsIPv6 sampleParseURL
           (sampleAxios "ENETUNREACH")).
  - intros k ip. reflexivity.
  - apply reachable_runOps. constructor.
Defined.

(** [nonpositive_batch_keeps_pool_empty] with a batch of 0. *)
Lemma nonpositive_batch_keeps_pool_empty_witness :
  ipPool (vars
    (runOps (sampleConfig 3 0) linux sampleExecOk sampleRandom sampleInterfaces
            sampleIsIPv6 sampleParseURL (sampleAxios "ENETUNREACH")
            [CallInit; CallManage; CallManage] initialState)) = [].
Proof.
  apply (nonpositive_batch_keeps_pool_empty (sampleConfig 3 0) linux sampleExecOk
           sampleRandom sampleInterfaces sampleIsIPv6 sampleParseURL
           (sampleAxios "ENETUNREACH")).
  - simpl. lia.
  - apply reachable_runOps. constructor.
Defined.

(** [explicit_address_bypasses_pool] on a module that never started. *)
Lemma explicit_address_bypasses_pool_witness :
  let url := "https://example.com/live/seg1.ts" in
  let run := requestWithIPv6 sampleIsIPv6 sampleParseURL (sampleAxios "ENETUNREACH") 4
               url emptyOptions (Some "2001:db8:1000::9") initialState in
  exists rest,
    axiosLog (world (snd run))
    = axiosLog (world initialState)
      ++ AxiosCfg (boundConfig url emptyOptions true
                     (createIPv6Agent "2001:db8:1000::9" true)) :: rest
    /\ (rest = [] \/ rest = [AxiosUrl url emptyOptions])
    /\ vars (snd run) = vars initialState.
Proof.
  exact (explicit_address_bypasses_pool sampleIsIPv6 sampleParseURL
           (sampleAxios "ENETUNREACH") 4 "https://example.com/live/seg1.ts" emptyOptions
           "2001:db8:1000::9" initialState
           (mkURL "https:" "example.com" EmptyString "/live/seg1.ts" EmptyString)
           ltac:(discriminate) eq_refl).
Defined.

(** [dispatch_takes_next_address] on the sample pool with the cursor at 1. *)
Lemma dispatch_takes_next_address_witness :
  let url := "http://example.com/live/seg1.ts" in
  let st := sampleStarted samplePool 1 in
  let run := requestWithIPv6 sampleIsIPv6 sampleParseURL (sampleAxios "ENETUNREACH") 4
               url emptyOptions None st in
  exists rest,
    axiosLog (world (snd run))
    = axiosLog (world st)
      ++ AxiosCfg (boundConfig url emptyOptions false
                     (createIPv6Agent "2001:db8:85a3:1000:0002:000d:0003:000e" false)) :: rest
    /\ (rest = [] \/ rest = [AxiosUrl url emptyOptions])
    /\ vars (snd run) = vars (set_currentIPIndex 2 st).
Proof.
  exact (dispatch_takes_next_address sampleIsIPv6 sampleParseURL
           (sampleAxios "ENETUNREACH") 3 "http://example.com/live/seg1.ts" emptyOptions
           (sampleStarted samplePool 1) "2001:db8:85a3:1000:0002:000d:0003:000e"
           (mkURL "http:" "example.com" EmptyString "/live/seg1.ts" EmptyString)
           eq_refl eq_refl eq_refl ltac:(discriminate) eq_refl).
Defined.

(** [unparsable_url] on a string that is no URL. *)
Lemma unparsable_url_witness :
  createIPv6StreamRequest sampleIsIPv6 sampleParseURL 4 "GET" "not a url" [] None
    (sampleStarted samplePool 1)
  = (Thrown (mkJsError (Some "ERR_INVALID_URL") (Some "Invalid URL")),
     sampleStarted samplePool 1).
Proof.
  apply (proj1 (unparsable_url sampleIsIPv6 sampleParseURL (sampleAxios "ENETUNREACH")
                  4 "not a url" (sampleStarted samplePool 1) eq_refl)).
Defined.

(** [stream_request_target] on an https URL without a port. *)
Lemma stream_request_target_witness :
  let req := mkClientRequest true
               (mkRequestOptions "example.com" (inr 443) "/live/seg1.ts" "GET" []
                  (Some "2001:db8:85a3:1000:0002:000d:0003:000e") None None) in
  let st := sampleStarted samplePool 1 in
  viaHttps req = true
  /\ roHostname (reqOptions req) = "example.com"
  /\ roPath (reqOptions req) = "/live/seg1.ts"
  /\ roPort (reqOptions req) = inr 443
  /\ execLog (world (log_stream req (set_currentIPIndex 2 st))) = execLog (world st)
  /\ axiosLog (world (log_stream req (set_currentIPIndex 2 st))) = axiosLog (world st)
  /\ streamLog (world (log_stream req (set_currentIPIndex 2 st)))
     = streamLog (world st) ++ [req].
Proof.
  exact (stream_request_target sampleIsIPv6 sampleParseURL 4 "GET"
           "https://example.com/live/seg1.ts" [] None (sampleStarted samplePool 1)
           (mkClientRequest true
              (mkRequestOptions "example.com" (inr 443) "/live/seg1.ts" "GET" []
                 (Some "2001:db8:85a3:1000:0002:000d:0003:000e") None None))
           (log_stream
              (mkClientRequest true
                 (mkRequestOptions "example.com" (inr 443) "/live/seg1.ts" "GET" []
                    (Some "2001:db8:85a3:1000:0002:000d:0003:000e") None None))
              (set_currentIPIndex 2 (sampleStarted samplePool 1)))
           (mkURL "https:" "example.com" EmptyString "/live/seg1.ts" EmptyString)
           eq_refl eq_refl).
Defined.
